(** * TlmTools: the pool-data pipeline

    A shallow embedding of [avg_pools.py] (record parser, date normalizer,
    daily aggregator) and of [TLM_Pools.py] (ingestion into the raw CSV
    store, with the reader and the writer of the [csv] module it calls),
    with the properties of the specification stated over it.

    Conventions of the embedding.
    - A Python [str] is a Rocq [string] holding its UTF-8 bytes; comparing
      bytes lexicographically orders strings as Python orders code points.
    - A Python [float] is a primitive binary64 float.
    - A Python [dict] with string keys is a [gmap string _]; a [set] of
      strings is a [gset string].
    - A file is the string of its bytes, or absent.
    - Code that may raise returns a [result]: [Ok v], [Raise e], or
      [Unmodelled] when the input leaves the fragment of the Python library
      functions ([ast.literal_eval], [float], [str], reading a text file)
      that is embedded here. Nothing is claimed about [Unmodelled]
      inputs. *)

From Stdlib Require Import ZArith Floats Ascii DecimalString.
From stdpp Require Import gmap strings list sorting.

Set Warnings "-register-all,-abstract-large-number,-inexact-float".

(** ** Exceptions and results *)

Inductive exn : Set :=
  | TypeError
  | ValueError
  | SyntaxError
  | CsvError
  | IOError
  | RequestException
  | KeyError
  | OtherException.

Inductive result (A : Type) : Type :=
  | Ok (a : A)
  | Raise (e : exn)
  | Unmodelled.
Arguments Ok {A} a.
Arguments Raise {A} e.
Arguments Unmodelled {A}.

Global Instance result_ret : MRet result := @Ok.
Global Instance result_bind : MBind result := λ A B k r,
  match r with
  | Ok a => k a
  | Raise e => Raise e
  | Unmodelled => Unmodelled
  end.

(** The monadic left fold: a [for] loop whose body may raise. *)
Fixpoint foldM {A B} (f : B → A → result B) (b : B) (l : list A) : result B :=
  match l with
  | [] => Ok b
  | x :: l' => b' ← f b x; foldM f b' l'
  end.

(** ** Python string operations *)

Module PyStr.

Definition dquote : ascii := Ascii.ascii_of_nat 34.
Definition squote : ascii := Ascii.ascii_of_nat 39.

Definition is_ascii (c : ascii) : bool := (Ascii.nat_of_ascii c <? 128)%nat.

Fixpoint all_ascii (s : string) : bool :=
  match s with
  | EmptyString => true
  | String c s' => is_ascii c && all_ascii s'
  end.

(** The ASCII characters that [str.strip()] removes, and those that
    [float()] skips around a number. *)
Definition is_space (c : ascii) : bool :=
  let n := Ascii.nat_of_ascii c in
  ((9 <=? n) && (n <=? 13) || (28 <=? n) && (n <=? 32))%nat.
Definition is_c_space (c : ascii) : bool :=
  let n := Ascii.nat_of_ascii c in
  ((9 <=? n) && (n <=? 13) || (n =? 32))%nat.

Definition is_digit (c : ascii) : bool :=
  let n := Ascii.nat_of_ascii c in ((48 <=? n) && (n <=? 57))%nat.

Definition is_alpha (c : ascii) : bool :=
  let n := Ascii.nat_of_ascii c in
  ((65 <=? n) && (n <=? 90) || (97 <=? n) && (n <=? 122))%nat.

Definition ascii_eqb (a b : ascii) : bool := bool_decide (a = b).

(** [c in s] for a one-character [c]. *)
Fixpoint contains (c : ascii) (s : string) : bool :=
  match s with
  | EmptyString => false
  | String a s' => ascii_eqb a c || contains c s'
  end.

(** [s.split(c)] for a one-character separator: the fields between the
    occurrences of [c]; never empty. *)
Fixpoint split (c : ascii) (s : string) : list string :=
  match s with
  | EmptyString => [EmptyString]
  | String a s' =>
      if ascii_eqb a c then EmptyString :: split c s'
      else match split c s' with
           | [] => [String a EmptyString]
           | f :: fs => String a f :: fs
           end
  end.

Fixpoint lstrip (p : ascii → bool) (s : string) : string :=
  match s with
  | EmptyString => EmptyString
  | String a s' => if p a then lstrip p s' else s
  end.

Fixpoint rstrip (p : ascii → bool) (s : string) : string :=
  match s with
  | EmptyString => EmptyString
  | String a s' =>
      match rstrip p s' with
      | EmptyString => if p a then EmptyString else String a EmptyString
      | r => String a r
      end
  end.

(** [s.strip()] and [s.strip(c)]. *)
Definition strip_with (p : ascii → bool) (s : string) : string :=
  rstrip p (lstrip p s).
Definition strip (s : string) : string := strip_with is_space s.
Definition strip_char (c : ascii) (s : string) : string :=
  strip_with (fun a => ascii_eqb a c) s.

(** [drop_prefix p s] is [Some r] when [s = p ++ r]. *)
Fixpoint drop_prefix (p s : string) : option string :=
  match p, s with
  | EmptyString, _ => Some s
  | String a p', String b s' =>
      if ascii_eqb a b then drop_prefix p' s' else None
  | String _ _, EmptyString => None
  end.

(** [s.replace(old, "")] for a non-empty [old]: the occurrences of [old]
    are removed from left to right, without overlap. *)
Fixpoint remove_fuel (fuel : nat) (old s : string) : string :=
  match fuel with
  | O => s
  | S fuel' =>
      match drop_prefix old s with
      | Some rest => remove_fuel fuel' old rest
      | None =>
          match s with
          | EmptyString => EmptyString
          | String a s' => String a (remove_fuel fuel' old s')
          end
      end
  end.
Definition remove (old s : string) : string :=
  remove_fuel (S (String.length s)) old s.

End PyStr.

(** ** Python floats *)

Module PyFloat.
Local Open Scope Z_scope.

Definition of_Z (z : Z) : float := PrimFloat.of_uint63 (Uint63.of_Z z).

(** [x / n] for a float [x] and an [int] [n] (a length, below 2^53). *)
Definition div_len (x : float) (n : nat) : float :=
  PrimFloat.div x (of_Z (Z.of_nat n)).

Definition digit_val (c : ascii) : Z := Z.of_nat (Ascii.nat_of_ascii c) - 48.

Fixpoint digits_val (acc : Z) (s : string) : option Z :=
  match s with
  | EmptyString => Some acc
  | String c s' =>
      if PyStr.is_digit c then digits_val (10 * acc + digit_val c) s'
      else None
  end.

(** Characters that occur in some accepted argument of [float()], white
    space apart: digits, sign, point, underscore, exponent mark and the
    letters of inf, infinity and nan. *)
Definition float_char (c : ascii) : bool :=
  PyStr.is_digit c ||
  bool_decide (c ∈ String.list_ascii_of_string "+-._eEiInNfFtTyYaA").

Fixpoint has_foreign_char (s : string) : bool :=
  match s with
  | EmptyString => false
  | String c s' => negb (float_char c) || has_foreign_char s'
  end.

Definition split_sign (s : string) : bool * string :=
  match s with
  | String c s' =>
      if PyStr.ascii_eqb c "-"%char then (true, s')
      else if PyStr.ascii_eqb c "+"%char then (false, s')
      else (false, s)
  | EmptyString => (false, s)
  end.

(** An unsigned decimal [ddd] or [ddd.ddd] as mantissa and number of
    fractional digits. *)
Definition decimal (s : string) : option (Z * nat) :=
  match PyStr.split "."%char s with
  | [i] =>
      if bool_decide (i = EmptyString) then None
      else m ← digits_val 0 i; Some (m, 0%nat)
  | [i; f] =>
      if bool_decide (i = EmptyString) && bool_decide (f = EmptyString)
      then None
      else m ← digits_val 0 (i +:+ f); Some (m, String.length f)
  | _ => None
  end.

(** [float(s)]. The embedded fragment is the plain decimals whose
    mantissa is below 2^53 with at most 18 fractional digits: mantissa and
    power of ten are then exact floats and their correctly rounded
    quotient is the float nearest to the decimal, which is what [float()]
    returns. An ASCII string with a character that no float literal
    contains raises [ValueError]; strings with other bytes (digits and
    spaces of other scripts) are outside the fragment. *)
Definition float_of_string (s : string) : result float :=
  let t := PyStr.strip_with PyStr.is_c_space s in
  if negb (PyStr.all_ascii s) then Unmodelled
  else if bool_decide (t = EmptyString) || has_foreign_char t
  then Raise ValueError
  else
    let '(neg, u) := split_sign t in
    match decimal u with
    | Some (m, k) =>
        if (m <? 2 ^ 53) && (k <=? 18)%nat then
          let q := PrimFloat.div (of_Z m) (of_Z (10 ^ Z.of_nat k)) in
          Ok (if neg then PrimFloat.opp q else q)
        else Unmodelled
    | None => Unmodelled
    end.

Definition digit_char (d : Z) : ascii :=
  Ascii.ascii_of_nat (48 + Z.to_nat d)%nat.

Definition string_of_N (n : N) : string :=
  NilZero.string_of_uint (N.to_uint n).

(** Round the exact value [m * 2^e] times 10^4 to the nearest integer,
    ties to even. *)
Definition scaled_round (m : positive) (e : Z) : Z :=
  if 0 <=? e then Z.pos m * 2 ^ e * 10000
  else
    let num := Z.pos m * 10000 in
    let den := 2 ^ (- e) in
    let q := num / den in
    let r := num mod den in
    match 2 * r ?= den with
    | Lt => q
    | Gt => q + 1
    | Eq => if Z.even q then q else q + 1
    end.

Definition fixed4 (n : Z) : string :=
  let ip := n / 10000 in
  let fp := n mod 10000 in
  string_of_N (Z.to_N ip) +:+ "." +:+
  String (digit_char (fp / 1000))
    (String (digit_char (fp / 100 mod 10))
      (String (digit_char (fp / 10 mod 10))
        (String (digit_char (fp mod 10)) EmptyString))).

Definition sign_str (s : bool) : string := if s then "-" else "".

(** [f'{x:.4f}']: the exact binary value rounded to four decimals, ties
    to even. *)
Definition format_4f (x : float) : string :=
  match Prim2SF x with
  | S754_nan => "nan"
  | S754_infinity s => sign_str s +:+ "inf"
  | S754_zero s => sign_str s +:+ "0.0000"
  | S754_finite s m e => sign_str s +:+ fixed4 (scaled_round m e)
  end.

(** [sum(values)] as CPython computes it before version 3.12: the
    additions are done from left to right, starting from the integer 0.
    (From 3.12 on the additions are compensated; both agree on lists of
    at most two elements.) *)
Definition sum_left (values : list float) : float :=
  fold_left PrimFloat.add values (of_Z 0).

End PyFloat.

(** ** Python literals: the fragment of [ast.literal_eval] that is embedded *)

(** The values a literal of the fragment denotes. A [PSet] lists its
    elements and a [PDict] its bindings in source order; a lookup in a
    [PDict] takes the last binding of the key, since a later duplicate
    replaces an earlier one when the dict is built. *)
Inductive pyval : Type :=
  | PNone
  | PBool (b : bool)
  | PInt (z : Z)
  | PStr (s : string)
  | PList (items : list pyval)
  | PSet (items : list pyval)
  | PDict (bindings : list (pyval * pyval)).

Definition hashable (v : pyval) : bool :=
  match v with
  | PList _ | PSet _ | PDict _ => false
  | _ => true
  end.

Module Literal.

Inductive token : Set :=
  | TLBrack | TRBrack | TLBrace | TRBrace | TComma | TColon
  | TStr (s : string)
  | TInt (z : Z)
  | TName (s : string).

(** The lexer state; the characters of the current token are kept in
    reverse. *)
Inductive lex_state : Set :=
  | LIdle
  | LStr (q : ascii) (acc : string)
  | LInt (acc : string)
  | LName (acc : string).

Definition is_name_char (c : ascii) : bool :=
  PyStr.is_alpha c || PyStr.is_digit c || PyStr.ascii_eqb c "_"%char.

(** A character met between tokens: a one-character token, the start of a
    longer one, a blank, or a character outside the fragment. *)
Definition idle_step (c : ascii) : option (list token * lex_state) :=
  if PyStr.ascii_eqb c " "%char || PyStr.ascii_eqb c "009"%char then Some ([], LIdle)
  else if PyStr.ascii_eqb c "["%char then Some ([TLBrack], LIdle)
  else if PyStr.ascii_eqb c "]"%char then Some ([TRBrack], LIdle)
  else if PyStr.ascii_eqb c "{"%char then Some ([TLBrace], LIdle)
  else if PyStr.ascii_eqb c "}"%char then Some ([TRBrace], LIdle)
  else if PyStr.ascii_eqb c ","%char then Some ([TComma], LIdle)
  else if PyStr.ascii_eqb c ":"%char then Some ([TColon], LIdle)
  else if PyStr.ascii_eqb c PyStr.dquote || PyStr.ascii_eqb c PyStr.squote
  then Some ([], LStr c EmptyString)
  else if PyStr.is_digit c then Some ([], LInt (String c EmptyString))
  else if PyStr.is_alpha c || PyStr.ascii_eqb c "_"%char
  then Some ([], LName (String c EmptyString))
  else None.

(** A decimal integer literal: no leading zero unless it is "0". *)
Definition int_token (acc : string) : option token :=
  let s := String.rev acc in
  match s with
  | String "0" (String _ _) => None
  | _ => z ← PyFloat.digits_val 0 s; Some (TInt z)
  end.

Definition lex_step (st : lex_state) (c : ascii)
    : option (list token * lex_state) :=
  match st with
  | LIdle => idle_step c
  | LStr q acc =>
      if PyStr.ascii_eqb c q then Some ([TStr (String.rev acc)], LIdle)
      else if PyStr.ascii_eqb c "\"%char || PyStr.ascii_eqb c "010"%char
              || PyStr.ascii_eqb c "013"%char then None
      else Some ([], LStr q (String c acc))
  | LInt acc =>
      if PyStr.is_digit c then Some ([], LInt (String c acc))
      else if is_name_char c || PyStr.ascii_eqb c "."%char then None
      else t ← int_token acc; '(ts, st') ← idle_step c; Some (t :: ts, st')
  | LName acc =>
      if is_name_char c then Some ([], LName (String c acc))
      else if PyStr.ascii_eqb c PyStr.dquote || PyStr.ascii_eqb c PyStr.squote
      then None
      else '(ts, st') ← idle_step c; Some (TName (String.rev acc) :: ts, st')
  end.

Definition lex_end (st : lex_state) : option (list token) :=
  match st with
  | LIdle => Some []
  | LStr _ _ => None
  | LInt acc => t ← int_token acc; Some [t]
  | LName acc => Some [TName (String.rev acc)]
  end.

Fixpoint lex (st : lex_state) (s : string) : option (list token) :=
  match s with
  | EmptyString => lex_end st
  | String c s' =>
      '(ts, st') ← lex_step st c; rest ← lex st' s'; Some (ts ++ rest)
  end.

(** Leading blanks are outside the fragment: [literal_eval] strips them
    only from Python 3.10 on. So is a text that holds a NUL character,
    which the compiler refuses whatever stands around it. *)
Definition tokenize (s : string) : option (list token) :=
  if PyStr.contains "000"%char s then None
  else
    match s with
    | String c _ =>
        if PyStr.ascii_eqb c " "%char || PyStr.ascii_eqb c "009"%char then None
        else lex LIdle s
    | EmptyString => None
    end.

(** The syntax trees of the fragment. *)
Inductive ast : Type :=
  | ANone
  | ABool (b : bool)
  | AInt (z : Z)
  | AStr (s : string)
  | AName (x : string)
  | ANot (e : ast)
  | AList (es : list ast)
  | ASet (es : list ast)
  | ADict (kvs : list (ast * ast)).

Definition keywords : list string :=
  ["and"; "as"; "assert"; "async"; "await"; "break"; "class"; "continue";
   "def"; "del"; "elif"; "else"; "except"; "finally"; "for"; "from";
   "global"; "if"; "import"; "in"; "is"; "lambda"; "nonlocal"; "or";
   "pass"; "raise"; "return"; "try"; "while"; "with"; "yield"].

Definition name_ast (x : string) : option ast :=
  if bool_decide (x = "None") then Some ANone
  else if bool_decide (x = "True") then Some (ABool true)
  else if bool_decide (x = "False") then Some (ABool false)
  else if bool_decide (x ∈ keywords) then None
  else Some (AName x).

(** Recursive descent over the tokens; [fuel] bounds the depth and the
    number of elements, [None] is a text outside the fragment. *)
Fixpoint parse_expr (fuel : nat) (ts : list token) : option (ast * list token) :=
  match fuel with
  | O => None
  | S fuel' =>
      match ts with
      | TStr s :: r => Some (AStr s, r)
      | TInt z :: r => Some (AInt z, r)
      | TName x :: r =>
          if bool_decide (x = "not")
          then '(e, r') ← parse_expr fuel' r; Some (ANot e, r')
          else e ← name_ast x; Some (e, r)
      | TLBrack :: TRBrack :: r => Some (AList [], r)
      | TLBrack :: r =>
          '(e, r1) ← parse_expr fuel' r;
          '(es, r2) ← parse_more fuel' true r1;
          Some (AList (e :: es), r2)
      | TLBrace :: TRBrace :: r => Some (ADict [], r)
      | TLBrace :: r =>
          '(e, r1) ← parse_expr fuel' r;
          match r1 with
          | TColon :: r2 =>
              '(v, r3) ← parse_expr fuel' r2;
              '(kvs, r4) ← parse_pairs fuel' r3;
              Some (ADict ((e, v) :: kvs), r4)
          | _ =>
              '(es, r2) ← parse_more fuel' false r1;
              Some (ASet (e :: es), r2)
          end
      | _ => None
      end
  end
(** The rest of a list ([brack = true]) or set display after an element. *)
with parse_more (fuel : nat) (brack : bool) (ts : list token)
    : option (list ast * list token) :=
  match fuel with
  | O => None
  | S fuel' =>
      match ts, brack with
      | TRBrack :: r, true | TRBrace :: r, false => Some ([], r)
      | TComma :: TRBrack :: r, true | TComma :: TRBrace :: r, false =>
          Some ([], r)
      | TComma :: r, _ =>
          '(e, r1) ← parse_expr fuel' r;
          '(es, r2) ← parse_more fuel' brack r1;
          Some (e :: es, r2)
      | _, _ => None
      end
  end
(** The rest of a dict display after a binding. *)
with parse_pairs (fuel : nat) (ts : list token)
    : option (list (ast * ast) * list token) :=
  match fuel with
  | O => None
  | S fuel' =>
      match ts with
      | TRBrace :: r | TComma :: TRBrace :: r => Some ([], r)
      | TComma :: r =>
          '(k, r1) ← parse_expr fuel' r;
          match r1 with
          | TColon :: r2 =>
              '(v, r3) ← parse_expr fuel' r2;
              '(kvs, r4) ← parse_pairs fuel' r3;
              Some ((k, v) :: kvs, r4)
          | _ => None
          end
      | _ => None
      end
  end.

Definition parse (ts : list token) : option ast :=
  match parse_expr (S (length ts)) ts with
  | Some (e, []) => Some e
  | _ => None
  end.

(** [_convert] of [ast.literal_eval]: constants and displays are
    evaluated, every other node is malformed ([ValueError]); building a
    set or a dict hashes each element or key as it is added. *)
Fixpoint convert (e : ast) : result pyval :=
  match e with
  | ANone => Ok PNone
  | ABool b => Ok (PBool b)
  | AInt z => Ok (PInt z)
  | AStr s => Ok (PStr s)
  | AName _ | ANot _ => Raise ValueError
  | AList es =>
      vs ← (fix go (l : list ast) : result (list pyval) :=
              match l with
              | [] => Ok []
              | x :: l' => v ← convert x; vs ← go l'; Ok (v :: vs)
              end) es;
      Ok (PList vs)
  | ASet es =>
      vs ← (fix go (l : list ast) : result (list pyval) :=
              match l with
              | [] => Ok []
              | x :: l' =>
                  v ← convert x;
                  if hashable v then vs ← go l'; Ok (v :: vs)
                  else Raise TypeError
              end) es;
      Ok (PSet vs)
  | ADict kvs =>
      bs ← (fix go (l : list (ast * ast)) : result (list (pyval * pyval)) :=
              match l with
              | [] => Ok []
              | (k, v) :: l' =>
                  k' ← convert k;
                  v' ← convert v;
                  if hashable k' then bs ← go l'; Ok ((k', v') :: bs)
                  else Raise TypeError
              end) kvs;
      Ok (PDict bs)
  end.

Definition literal_eval (s : string) : result pyval :=
  match tokenize s with
  | Some ts =>
      match parse ts with
      | Some e => convert e
      | None => Unmodelled
      end
  | None => Unmodelled
  end.

End Literal.

(** ** avg_pools.py *)

(** A cell of the [pool] column as pandas hands it to [parse_pool_data]:
    a string, or a value that is not a string (NaN for an empty cell). *)
Inductive cell : Set :=
  | CStr (s : string)
  | CNotStr.

(** [item[k]] and [k in item] for a string [k]: the last binding of [k]. *)
Fixpoint dict_get (k : string) (bindings : list (pyval * pyval)) : option pyval :=
  match bindings with
  | [] => None
  | (PStr k', v) :: rest =>
      match dict_get k rest with
      | Some v' => Some v'
      | None => if bool_decide (k' = k) then Some v else None
      end
  | _ :: rest => dict_get k rest
  end.

Definition string_of_Z (z : Z) : string :=
  PyFloat.sign_str (z <? 0)%Z +:+ PyFloat.string_of_N (Z.abs_N z).

(** [str(v)] for the scalars of the fragment. *)
Definition py_str (v : pyval) : result string :=
  match v with
  | PStr s => Ok s
  | PInt z => Ok (string_of_Z z)
  | PNone => Ok "None"
  | PBool b => Ok (if b then "True" else "False")
  | PList _ | PSet _ | PDict _ => Unmodelled
  end.

Definition chars (s : string) : list pyval :=
  (λ c, PStr (String c EmptyString)) <$> String.list_ascii_of_string s.

(** [for item in pool_list]: the items a value yields when iterated. *)
Definition py_iter (v : pyval) : result (list pyval) :=
  match v with
  | PList items | PSet items => Ok items
  | PDict bindings => Ok (bindings.*1)
  | PStr s => Ok (chars s)
  | PNone | PBool _ | PInt _ => Raise TypeError
  end.

(** The body of the loop of [parse_pool_data] (lines 37 to 43). The right
    side of the assignment is evaluated first: a [ValueError] of [float]
    is caught and the field skipped; then the key is hashed. Keys that are
    hashable but not strings are outside the embedded fragment. *)
Definition parse_item (pool_data : gmap string float) (item : pyval)
    : result (gmap string float) :=
  match item with
  | PDict bindings =>
      match dict_get "key" bindings, dict_get "value" bindings with
      | Some k, Some v =>
          s ← py_str v;
          let value_str := PyStr.strip (PyStr.remove " TLM" s) in
          match PyFloat.float_of_string value_str with
          | Ok x =>
              match k with
              | PStr key => Ok (<[key := x]> pool_data)
              | PList _ | PSet _ | PDict _ => Raise TypeError
              | PNone | PBool _ | PInt _ => Unmodelled
              end
          | Raise ValueError => Ok pool_data
          | Raise e => Raise e
          | Unmodelled => Unmodelled
          end
      | _, _ => Ok pool_data
      end
  | _ => Ok pool_data
  end.

(** The exceptions named by the [except] clause of [parse_pool_data]
    ([json.JSONDecodeError] is a [ValueError]). *)
Definition caught_by_parser (e : exn) : bool :=
  match e with
  | ValueError | SyntaxError => true
  | _ => false
  end.

(** [parse_pool_data]. Only [literal_eval] raises an exception that the
    [except] clause names, and it does so before any key is stored, so the
    handler returns the empty dict. Strings with bytes outside ASCII are
    outside the embedded fragment. *)
Definition parse_pool_data (pool_str : cell) : result (gmap string float) :=
  match pool_str with
  | CNotStr => Ok ∅
  | CStr s =>
      if negb (PyStr.all_ascii s) then Unmodelled
      else if bool_decide (PyStr.strip s = EmptyString) then Ok ∅
      else
        let clean_str := PyStr.strip_char PyStr.squote
                           (PyStr.strip_char PyStr.dquote s) in
        match Literal.literal_eval clean_str with
        | Ok pool_list =>
            items ← py_iter pool_list; foldM parse_item ∅ items
        | Raise e => if caught_by_parser e then Ok ∅ else Raise e
        | Unmodelled => Unmodelled
        end
  end.

(** [extract_date] on [str(date_str)]. The bare [except] returns the
    string itself; it is the [None] case of the indexing. *)
Definition extract_date (date_str : string) : string :=
  let date_part :=
    if PyStr.contains "T" date_str
    then PyStr.split "T" date_str !! 0%nat
    else PyStr.split " " date_str !! 0%nat in
  default date_str date_part.

Record avg_entry : Set := AvgEntry { key : string; value : string }.

(** A row of the raw store as read by pandas: [str()] of its date cell
    and its pool cell. *)
Record raw_row : Set := RawRow { date : string; pool : cell }.

(** A row of the frame after lines 125 and 129. *)
Record parsed_row : Type :=
  ParsedRow { day : string; parsed_pool : gmap string float }.

Record summary_row : Set := SummaryRow {
  day_id : nat;
  summary_day : string;
  avgpool : list avg_entry;
  numberofentries : nat
}.

Definition all_keys (daily_pools : list (gmap string float)) : gset string :=
  fold_left (λ acc pool_data, acc ∪ dom pool_data) daily_pools ∅.

(** [sorted(xs)] on strings. *)
Definition sorted (xs : list string) : list string := merge_sort String.le xs.

(** [[pool_data.get(key, 0) for pool_data in daily_pools if key in pool_data]] *)
Definition values_of (key : string) (daily_pools : list (gmap string float))
    : list float :=
  omap (λ pool_data : gmap string float, pool_data !! key) daily_pools.

Definition parse_row (r : raw_row) : result parsed_row :=
  p ← parse_pool_data (pool r); Ok (ParsedRow (extract_date (date r)) p).

(** Line 132: the rows whose parsed dict is not empty. *)
Definition valid_rows (df : list parsed_row) : list parsed_row :=
  filter (λ r, 0 < size (parsed_pool r)) df.

(** The keys of [groupby('day')], which sorts them. *)
Definition group_days (rows : list parsed_row) : list string :=
  sorted (remove_dups (day <$> rows)).

Definition group (rows : list parsed_row) (d : string) : list parsed_row :=
  filter (λ r, day r = d) rows.

Section aggregation.

(** [sum] on a list of floats; its rounding depends on the version of
    the interpreter ([PyFloat.sum_left] before 3.12), so the aggregator
    takes it as a parameter. *)
Variable py_sum : list float → float.

(** [sum(values) / len(values)] *)
Definition average (values : list float) : float :=
  PyFloat.div_len (py_sum values) (length values).

Definition avg_entry_of (daily_pools : list (gmap string float)) (key : string)
    : option avg_entry :=
  match values_of key daily_pools with
  | [] => None
  | values =>
      Some (AvgEntry key (PyFloat.format_4f (average values) +:+ " TLM"))
  end.

Definition calculate_daily_averages (daily_pools : list (gmap string float))
    : list avg_entry :=
  match daily_pools with
  | [] => []
  | _ =>
      omap (avg_entry_of daily_pools)
           (sorted (elements (all_keys daily_pools)))
  end.

(** Lines 140 to 169 on the valid rows. *)
Definition daily_summary (rows : list parsed_row) : list summary_row :=
  imap (λ i d,
          let g := group rows d in
          SummaryRow (S i) d
            (calculate_daily_averages (parsed_pool <$> g)) (length g))
       (group_days rows).

(** The body of the [try] of [process_csv_data] on a frame that is not
    empty. *)
Definition summarize (df : list raw_row) : result (list summary_row) :=
  parsed ← mapM parse_row df;
  Ok (daily_summary (valid_rows parsed)).

(** [process_csv_data]: the table written to the output file, or [None]
    when no file is written (no input rows, or an exception, which the
    handler at the end of the function reports). *)
Definition process_csv_data (df : list raw_row)
    : result (option (list summary_row)) :=
  match df with
  | [] => Ok None
  | _ =>
      match summarize df with
      | Ok out => Ok (Some out)
      | Raise _ => Ok None
      | Unmodelled => Unmodelled
      end
  end.

End aggregation.

(** ** Notions of the further properties *)

(** A row of the raw store that the aggregator counts: its pool field
    parses to a dict that is not empty. *)
Definition counted (r : raw_row) : bool :=
  match parse_pool_data (pool r) with
  | Ok m => bool_decide (0 < size m)
  | _ => false
  end.

(** What a row of the output holds besides the averages: its id, its
    day, its keys and its entry count. *)
Definition row_shape (row : summary_row) : nat * string * list string * nat :=
  (day_id row, summary_day row, key <$> avgpool row, numberofentries row).

(** ** Notions of the specification *)

(** The parsed dicts of the rows of the raw store whose normalized day is
    [d], in store order. *)
Definition day_records (df : list raw_row) (d : string)
    : list (gmap string float) :=
  omap (λ r,
          if bool_decide (extract_date (date r) = d)
          then match parse_pool_data (pool r) with
               | Ok m => Some m
               | _ => None
               end
          else None) df.

(** Following the words of the specification: a timestamp in date-time
    form, a date dddd-dd-dd and a time dd:dd:dd separated by [sep]. *)
Definition date_time_form (sep : ascii) (s : string) : bool :=
  bool_decide
    (((λ c : ascii, if PyStr.is_digit c then "d"%char else c)
        <$> String.list_ascii_of_string s)
     = String.list_ascii_of_string "dddd-dd-dd"
         ++ sep :: String.list_ascii_of_string "dd:dd:dd").

(** Following the words of the specification: an item is well formed when
    it carries a [key] and a [value] whose text, unit suffix stripped, is a
    number. *)
Definition item_well_formed (item : pyval) : bool :=
  match item with
  | PDict bindings =>
      match dict_get "key" bindings, dict_get "value" bindings with
      | Some (PStr _), Some (PStr s) =>
          match PyFloat.float_of_string (PyStr.strip (PyStr.remove " TLM" s)) with
          | Ok _ => true
          | _ => false
          end
      | _, _ => false
      end
  | _ => false
  end.

(** Following the words of the specification: a pool field parsed
    successfully when it decodes as a literal sequence of well-formed
    items, none of the decode failures (malformed literal, missing fields,
    non-numeric value) having occurred. *)
Definition parsed_successfully (c : cell) : bool :=
  match c with
  | CStr s =>
      match Literal.literal_eval
              (PyStr.strip_char PyStr.squote (PyStr.strip_char PyStr.dquote s)) with
      | Ok (PList items) => forallb item_well_formed items
      | _ => false
      end
  | CNotStr => false
  end.

(** Following the words of the specification: amounts under fixed decimal
    semantics. An amount is an exact decimal, sums and averages are exact,
    and the only rounding is the one to four decimals at emission. *)
Module DecimalSpec.

(** The exact rational [num / den]. *)
Record amount : Set := Amount { num : Z; den : positive }.

Definition amount_of_string (s : string) : option amount :=
  let '(neg, u) := PyFloat.split_sign (PyStr.strip s) in
  '(m, k) ← PyFloat.decimal u;
  Some (Amount (if neg then - m else m)%Z (Z.to_pos (10 ^ Z.of_nat k))).

Definition add (a b : amount) : amount :=
  Amount (num a * Z.pos (den b) + num b * Z.pos (den a))%Z (den a * den b)%positive.

Definition sum (l : list amount) : amount := fold_left add l (Amount 0 1).

Definition average (l : list amount) : amount :=
  let t := sum l in Amount (num t) (den t * Pos.of_nat (length l))%positive.

(** Rounding of [|a| * 10^4] to the nearest integer; a tie goes to the
    even neighbour, or away from zero when [half_up] is set. *)
Definition round4 (half_up : bool) (a : amount) : Z :=
  let n := (Z.abs (num a) * 10000)%Z in
  let d := Z.pos (den a) in
  let q := (n / d)%Z in
  let r := (n mod d)%Z in
  match (2 * r ?= d)%Z with
  | Lt => q
  | Gt => (q + 1)%Z
  | Eq => if half_up || negb (Z.even q) then (q + 1)%Z else q
  end.

Definition emit (half_up : bool) (a : amount) : string :=
  PyFloat.sign_str (num a <? 0)%Z +:+ PyFloat.fixed4 (round4 half_up a) +:+ " TLM".

(** The value emitted for a key whose amounts of the day have the texts
    [texts]. *)
Definition emitted (half_up : bool) (texts : list string) : option string :=
  amounts ← mapM amount_of_string texts;
  Some (emit half_up (average amounts)).

End DecimalSpec.

(** ** The csv module, as [TLM_Pools.py] uses it *)

(** The excel dialect with minimal quoting, which [csv.DictWriter] and
    [csv.DictReader] take by default, and a file read in text mode with
    universal newlines. The reader and the writer follow CPython 3.11. *)
Module Csv.

Definition comma : ascii := ","%char.
Definition CR : ascii := "013"%char.
Definition LF : ascii := "010"%char.

(** *** [csv.writer] *)

(** The characters that make the writer quote a field: the delimiter,
    the quote character and those of the line terminator. *)
Definition special (c : ascii) : bool :=
  PyStr.ascii_eqb c comma || PyStr.ascii_eqb c PyStr.dquote
  || PyStr.ascii_eqb c CR || PyStr.ascii_eqb c LF.

Fixpoint needs_quotes (f : string) : bool :=
  match f with
  | EmptyString => false
  | String c f' => special c || needs_quotes f'
  end.

(** Each quote character of a quoted field is written twice. *)
Fixpoint doubled (f : string) : string :=
  match f with
  | EmptyString => EmptyString
  | String c f' =>
      if PyStr.ascii_eqb c PyStr.dquote then String c (String c (doubled f'))
      else String c (doubled f')
  end.

Definition quoted (f : string) : string :=
  String PyStr.dquote (doubled f +:+ String PyStr.dquote EmptyString).

Definition write_field (f : string) : string :=
  if needs_quotes f then quoted f else f.

Fixpoint join_fields (cells : list string) : string :=
  match cells with
  | [] => EmptyString
  | f :: cells' =>
      match cells' with
      | [] => write_field f
      | _ => write_field f +:+ String comma (join_fields cells')
      end
  end.

Definition line_terminator : string := String CR (String LF EmptyString).

(** [writerow]: the fields, separated by commas, and the line
    terminator; a record of one empty field is written as two quotes. *)
Definition write_row (cells : list string) : string :=
  (if bool_decide (cells = [EmptyString]) then quoted EmptyString
   else join_fields cells) +:+ line_terminator.

(** [writerows]. *)
Fixpoint write_rows (rows : list (list string)) : string :=
  match rows with
  | [] => EmptyString
  | cells :: rows' => write_row cells +:+ write_rows rows'
  end.

(** *** A file opened with [open(path, "r")] *)

(** Universal newlines: a carriage return, with the line feed that
    follows it if there is one, is read as a line feed. [after_cr] tells
    that the character before was a carriage return. *)
Fixpoint universal_newlines (after_cr : bool) (text : string) : string :=
  match text with
  | EmptyString => EmptyString
  | String c text' =>
      if PyStr.ascii_eqb c CR then String LF (universal_newlines true text')
      else if PyStr.ascii_eqb c LF then
        if after_cr then universal_newlines false text'
        else String LF (universal_newlines false text')
      else String c (universal_newlines false text')
  end.

(** The bytes that are the same text in every encoding the file may be
    read with, and that every version of the reader accepts: ASCII
    without the NUL character. *)
Definition text_char (c : ascii) : bool :=
  let n := Ascii.nat_of_ascii c in (0 <? n)%nat && (n <? 128)%nat.

Fixpoint modelled (text : string) : bool :=
  match text with
  | EmptyString => true
  | String c text' => text_char c && modelled text'
  end.

(** *** [csv.reader] *)

(** The states of the parser of [_csv.c] that the dialect reaches. The
    state in which it eats the characters of a line break is left out:
    the reader is given lines that end with their line feed, so that
    after a line feed outside quotes a record ends. *)
Inductive phase : Set :=
  | StartRecord
  | StartField
  | InField
  | InQuotedField
  | QuoteInQuotedField.

(** The parser: its state, the fields of the record it is reading and
    the characters of the field it is reading. *)
Record reader : Set := Reader {
  phase_of : phase;
  fields : list string;
  field : string
}.

Definition start : reader := Reader StartRecord [] EmptyString.

(** [parse_save_field]. *)
Definition save (s : reader) : list string := fields s ++ [field s].

(** [parse_add_char]. *)
Definition add_char (s : reader) (c : ascii) (p : phase) : reader :=
  Reader p (fields s) (field s +:+ String c EmptyString).

(** [parse_process_char]: the record that ends with [c], if one does,
    and the next state. *)
Definition step (s : reader) (c : ascii) : option (list string) * reader :=
  match phase_of s with
  | StartRecord | StartField =>
      if PyStr.ascii_eqb c LF then
        match phase_of s with
        | StartRecord => (Some [], s)
        | _ => (Some (save s), start)
        end
      else if PyStr.ascii_eqb c PyStr.dquote
      then (None, Reader InQuotedField (fields s) (field s))
      else if PyStr.ascii_eqb c comma then (None, Reader StartField (save s) EmptyString)
      else (None, add_char s c InField)
  | InField =>
      if PyStr.ascii_eqb c LF then (Some (save s), start)
      else if PyStr.ascii_eqb c comma then (None, Reader StartField (save s) EmptyString)
      else (None, add_char s c InField)
  | InQuotedField =>
      if PyStr.ascii_eqb c PyStr.dquote
      then (None, Reader QuoteInQuotedField (fields s) (field s))
      else (None, add_char s c InQuotedField)
  | QuoteInQuotedField =>
      if PyStr.ascii_eqb c PyStr.dquote then (None, add_char s c InQuotedField)
      else if PyStr.ascii_eqb c comma then (None, Reader StartField (save s) EmptyString)
      else if PyStr.ascii_eqb c LF then (Some (save s), start)
      else (None, add_char s c InField)
  end.

(** The records that end in [text], and the state after it. *)
Fixpoint scan (s : reader) (text : string) : list (list string) * reader :=
  match text with
  | EmptyString => ([], s)
  | String c text' =>
      let '(rec, s') := step s c in
      let '(recs, s'') := scan s' text' in
      (option_list rec ++ recs, s'')
  end.

(** The end of the input: a record that has begun ends there. *)
Definition finish (s : reader) : list (list string) :=
  match phase_of s with
  | StartRecord => []
  | _ => [save s]
  end.

(** [list(csv.reader(f))] for a file [f] that holds [text]. *)
Definition records (text : string) : list (list string) :=
  let '(recs, s) := scan start (universal_newlines false text) in
  recs ++ finish s.

(** The reader expects a new record. *)
Definition at_start (s : reader) : bool :=
  match phase_of s, fields s, field s with
  | StartRecord, [], EmptyString => true
  | _, _, _ => false
  end.

(** The text ends where a record ends: a reader that has read it expects
    a new record. *)
Definition complete (text : string) : bool :=
  at_start (scan start (universal_newlines false text)).2.

(** [csv.field_size_limit()]. The reader raises [csv.Error] when it
    reaches a record with a longer field. *)
Definition field_limit : Z := 131072.

Definition oversized (rec : list string) : bool :=
  existsb (λ f, (field_limit <? Z.of_nat (String.length f))%Z) rec.

(** *** Notions of the proofs about the reader *)

(** The fields of a written record as they are read back: with their
    line breaks read as line feeds. *)
Definition read_back (cells : list string) : list string :=
  universal_newlines false <$> cells.

(** Whether a text ends with a carriage return; [b] for the empty text. *)
Fixpoint last_cr (b : bool) (x : string) : bool :=
  match x with
  | EmptyString => b
  | String c x' => last_cr (PyStr.ascii_eqb c CR) x'
  end.

Definition starts_lf (y : string) : bool :=
  match y with
  | String c _ => PyStr.ascii_eqb c LF
  | EmptyString => false
  end.

(** What the reader is given for a field the writer wrote. *)
Definition form (f : string) : string :=
  if needs_quotes f then quoted (universal_newlines false f) else f.

(** The states in which the reader expects a field. *)
Definition starting (ph : phase) : Prop := ph = StartRecord ∨ ph = StartField.

(** The state after a written field [g] that follows the fields [fs]: a
    comma saves the field, and so does the end of the line. *)
Definition holds (s : reader) (fs : list string) (g : string) : Prop :=
  fields s = fs ∧ field s = g ∧
  (phase_of s = StartRecord ∨ phase_of s = StartField
   ∨ phase_of s = InField ∨ phase_of s = QuoteInQuotedField).

End Csv.

(** ** TLM_Pools.py *)

Module Ingest.

(** A JSON value of the response, as far as the script tells values
    apart: [null], a string, or another value, given by the text [str()]
    yields for it. *)
Inductive jval : Set :=
  | JNull
  | JStr (s : string)
  | JOther (text : string).

(** [str(v)]. *)
Definition jstr (v : jval) : string :=
  match v with
  | JNull => "None"
  | JStr s | JOther s => s
  end.

(** The field [csv.writer] makes of [v]: empty for [None], [str(v)] for
    every other value. *)
Definition cell_text (v : jval) : string :=
  match v with
  | JNull => EmptyString
  | JStr s | JOther s => s
  end.

(** A row of the response; a field is [None] when the key is absent. *)
Record api_row : Set := ApiRow {
  snapshot_id : option jval;
  snapshot_date : option jval;
  pool_buckets : option jval
}.

Record processed_row : Set := ProcessedRow {
  id : string;
  date : string;
  pool : jval;
  raw_timestamp : jval
}.

(** What the script prints. *)
Inductive event : Set :=
  | NoDataFound
  | SkippedRow
  | InvalidTimestampFormat (row_id : string)
  | NoIdColumn
  | CsvReadError (e : exn)
  | Added (new total : nat)
  | FileWriteError (e : exn)
  | NoNewEntries (existing : nat)
  | NetworkErrorOccurred
  | CriticalStructureError
  | UnexpectedError (e : exn).

(** The file [minepooldata.csv]: absent, or the bytes it holds. *)
Definition store : Type := option string.

Definition fieldnames : list string := ["id"; "date"; "pool"; "raw_timestamp"].

(** Lines 20 to 22 and the rows of the response. The rows are taken to be
    JSON objects: one that is not is skipped, or makes the loop raise
    before the file is touched, which [FetchRaises] covers. *)
Inductive fetch_result : Type :=
  | FetchRaises (e : exn)
  | FetchRows (data : list api_row).

(** A write that fails: [open] raises and the file is as before, or an
    exception is raised while the rows are written or the file is
    closed, when [written] characters of the text had reached the
    file. *)
Inductive write_failure : Set :=
  | OpenFails (e : exn)
  | WriteFails (e : exn) (written : nat).

(** What the outside world does during a run: the outcome of the request
    and of decoding its body, the exception, if any, that opening,
    decoding or reading the file raises ([UnicodeDecodeError], a
    [ValueError], for bytes that are no text in the encoding of the
    locale), and the failure, if any, of the write. *)
Record env : Type := Env {
  fetch : fetch_result;
  read_fault : option exn;
  write_fault : option write_failure
}.

Definition replace_char (a b : ascii) (s : string) : string :=
  String.string_of_list_ascii
    ((λ c, if PyStr.ascii_eqb c a then b else c) <$> String.list_ascii_of_string s).

(** The fields [DictWriter] writes for a row, in the order of
    [fieldnames]. *)
Definition cells (r : processed_row) : list string :=
  [id r; date r; cell_text (pool r); cell_text (raw_timestamp r)].

(** The index of the last occurrence of [k]. *)
Fixpoint last_index (k : string) (l : list string) : option nat :=
  match l with
  | [] => None
  | x :: l' =>
      match last_index k l' with
      | Some i => Some (S i)
      | None => if bool_decide (x = k) then Some 0%nat else None
      end
  end.

(** [str(row["id"])] for the records a [DictReader] with the header
    [header] yields: blank records are skipped, a record too short to
    have the column gets [None]. *)
Definition read_ids (header : list string) (records : list (list string))
    : option (list string) :=
  i ← last_index "id" header;
  Some ((λ rec : list string, default "None" (rec !! i))
          <$> filter (λ rec, rec ≠ []) records).

(** The ids the file holds when it is read under its own header. *)
Definition stored_ids (text : string) : list string :=
  match Csv.records text with
  | header :: records => default [] (read_ids header records)
  | [] => []
  end.

Section run.

(** [datetime.fromisoformat(s).strftime("%Y-%m-%d %H:%M:%S")], [None]
    when it raises [ValueError]. *)
Variable iso_format : string → option string.

(** Lines 34 to 40. A value that is not a string has no [replace]. *)
Definition date_str (timestamp : jval) : option string :=
  match timestamp with
  | JStr s => iso_format (replace_char "T" " " s)
  | _ => None
  end.

(** The body of the loop of lines 29 to 47. *)
Definition process_row (row : api_row) : option processed_row * list event :=
  match snapshot_id row, snapshot_date row, pool_buckets row with
  | Some i, Some timestamp, Some p =>
      match date_str timestamp with
      | Some d => (Some (ProcessedRow (jstr i) d p timestamp), [])
      | None =>
          (Some (ProcessedRow (jstr i) "Invalid timestamp" p timestamp),
           [InvalidTimestampFormat (jstr i)])
      end
  | _, _, _ => (None, [SkippedRow])
  end.

Definition process (data : list api_row) : list processed_row * list event :=
  (omap (λ row, (process_row row).1) data,
   concat ((λ row, (process_row row).2) <$> data)).

(** The report of a row that is skipped. *)
Definition skipped (ev : event) : bool :=
  match ev with
  | SkippedRow => true
  | _ => false
  end.

(** Lines 53 to 64: the ids already stored and what is printed, or the
    exception that leaves the stage. The reader is lazy: the header is
    read first, the other records only when it has the id column. A text
    that is not [Csv.modelled] is read differently by different locales
    and versions. *)
Definition read_existing (csv_file : store) (fault : option exn)
    : result (gset string * list event) :=
  match csv_file with
  | None => Ok (∅, [])
  | Some text =>
      match fault with
      | Some CsvError => Ok (∅, [CsvReadError CsvError])
      | Some IOError => Ok (∅, [CsvReadError IOError])
      | Some e => Raise e
      | None =>
          if negb (Csv.modelled text) then Unmodelled
          else
            match Csv.records text with
            | [] => Ok (∅, [NoIdColumn])
            | header :: records =>
                if Csv.oversized header then Ok (∅, [CsvReadError CsvError])
                else
                  match read_ids header records with
                  | None => Ok (∅, [NoIdColumn])
                  | Some ids =>
                      if existsb Csv.oversized records
                      then Ok (∅, [CsvReadError CsvError])
                      else Ok (list_to_set ids, [])
                  end
            end
      end
  end.

(** Line 66. *)
Definition new_rows (processed_data : list processed_row)
    (existing_ids : gset string) : list processed_row :=
  filter (λ row, id row ∉ existing_ids) processed_data.

(** Lines 70 to 74: the text that is written, after what the file
    holds when there is one, as the file is opened to append. *)
Definition output (csv_file : store) (rows : list processed_row) : string :=
  match csv_file with
  | Some _ => Csv.write_rows (cells <$> rows)
  | None => Csv.write_rows (fieldnames :: (cells <$> rows))
  end.

(** The three handlers at the end of the script. *)
Definition report (e : exn) : event :=
  match e with
  | RequestException => NetworkErrorOccurred
  | KeyError => CriticalStructureError
  | _ => UnexpectedError e
  end.

(** What is printed for an exception raised by the write: line 77 for an
    I/O error, the handlers at the end for another one. *)
Definition write_report (e : exn) : event :=
  match e with
  | IOError => FileWriteError IOError
  | _ => report e
  end.

(** Lines 68 to 77: the append, or what is left of it when it fails,
    and the report. *)
Definition write_stage (w : env) (csv_file : store)
    (existing_ids : gset string) (rows : list processed_row)
    (log : list event) : store * list event :=
  let before := default EmptyString csv_file in
  let text := output csv_file rows in
  match write_fault w with
  | None =>
      (Some (before +:+ text),
       log ++ [Added (length rows) (size existing_ids + length rows)])
  | Some (OpenFails e) => (csv_file, log ++ [write_report e])
  | Some (WriteFails e written) =>
      (Some (before +:+ String.substring 0 written text),
       log ++ [write_report e])
  end.

(** One run of the script: the file afterwards and what was printed. *)
Definition run (w : env) (csv_file : store) : result (store * list event) :=
  match fetch w with
  | FetchRaises e => Ok (csv_file, [report e])
  | FetchRows [] => Ok (csv_file, [NoDataFound])
  | FetchRows data =>
      let '(processed_data, log) := process data in
      match processed_data with
      | [] => Ok (csv_file, log)
      | _ =>
          match read_existing csv_file (read_fault w) with
          | Ok (existing_ids, log') =>
              match new_rows processed_data existing_ids with
              | [] =>
                  Ok (csv_file, log ++ log' ++ [NoNewEntries (size existing_ids)])
              | rows =>
                  Ok (write_stage w csv_file existing_ids rows (log ++ log'))
              end
          | Raise e => Ok (csv_file, log ++ [report e])
          | Unmodelled => Unmodelled
          end
      end
  end.

End run.

(** A row the reader gives back as the writer was given it, whatever
    the locale: fields of modelled text within the field size limit,
    and no carriage return in the id. *)
Definition storable (r : processed_row) : bool :=
  forallb Csv.modelled (cells r) && negb (Csv.oversized (cells r))
  && negb (PyStr.contains Csv.CR (id r)).

(** An instance of [iso_format] for the examples: it accepts the texts
    of the shape dddd-dd-dd dd:dd:dd, which [strftime] gives back
    unchanged, and rejects every other text. The ranges of the calendar
    are not checked. *)
Definition iso_shape (s : string) : option string :=
  let shape :=
    (λ c : ascii,
       if PyStr.is_digit c then "d"%char else c)
      <$> String.list_ascii_of_string s in
  if bool_decide
       (shape = String.list_ascii_of_string "dddd-dd-dd dd:dd:dd")
  then Some s else None.

End Ingest.

(** ** The text of a stored pool field *)

(** [TLM_Pools.py] hands [row["pool_buckets"]] to [csv.DictWriter], which
    writes [str()] of it. For a list of [{'key': k, 'value': v}] objects of
    plain strings that text is built here; each builder takes the text
    that follows. *)
Module PoolText.

(** The characters [repr] leaves as they are inside single quotes:
    printable ASCII other than the single quote and the backslash. *)
Definition plain_char (c : ascii) : bool :=
  let n := Ascii.nat_of_ascii c in
  ((32 <=? n) && (n <=? 126) && negb (n =? 39) && negb (n =? 92))%nat.

Fixpoint plain (s : string) : bool :=
  match s with
  | EmptyString => true
  | String c s' => plain_char c && plain s'
  end.

(** [repr(s)] for a plain [s], followed by [rest]. *)
Definition repr_str (s rest : string) : string :=
  String PyStr.squote (s +:+ String PyStr.squote rest).

(** [repr({'key': k, 'value': v})], followed by [rest]. *)
Definition repr_item (e : string * string) (rest : string) : string :=
  String "{"
    (repr_str "key"
       (String ":" (String " "
          (repr_str e.1
             (String "," (String " "
                (repr_str "value"
                   (String ":" (String " "
                      (repr_str e.2 (String "}" rest))))))))))).

(** The items after the first, each preceded by a comma and a space. *)
Fixpoint repr_more (es : list (string * string)) (rest : string) : string :=
  match es with
  | [] => rest
  | e :: es' => String "," (String " " (repr_item e (repr_more es' rest)))
  end.

(** [str(entries)] for the list of the objects. *)
Definition pool_text (entries : list (string * string)) : string :=
  match entries with
  | [] => "[]"
  | e :: es => String "[" (repr_item e (repr_more es "]"))
  end.

(** *** Notions of the proofs about the stored text *)

(** The tokens of an item, of the items after the first and of the
    whole text, the syntax tree of an item and the value it denotes. *)
Definition item_tokens (e : string * string) : list Literal.token :=
  [Literal.TLBrace; Literal.TStr "key"; Literal.TColon; Literal.TStr e.1;
   Literal.TComma; Literal.TStr "value"; Literal.TColon; Literal.TStr e.2;
   Literal.TRBrace].

Definition more_tokens (es : list (string * string)) : list Literal.token :=
  es ≫= λ e, Literal.TComma :: item_tokens e.

Definition pool_tokens (entries : list (string * string)) : list Literal.token :=
  match entries with
  | [] => [Literal.TLBrack; Literal.TRBrack]
  | e :: es =>
      Literal.TLBrack :: item_tokens e ++ more_tokens es ++ [Literal.TRBrack]
  end.

Definition item_ast (e : string * string) : Literal.ast :=
  Literal.ADict [(Literal.AStr "key", Literal.AStr e.1);
                 (Literal.AStr "value", Literal.AStr e.2)].

Definition item_val (e : string * string) : pyval :=
  PDict [(PStr "key", PStr e.1); (PStr "value", PStr e.2)].

(** The text between the brackets. *)
Definition inner (entries : list (string * string)) : string :=
  match entries with
  | [] => EmptyString
  | e :: es => repr_item e (repr_more es EmptyString)
  end.

End PoolText.

(** ** avg_Visual.py *)

Module Visual.

(** Lines 152 and 153: the rows of the grid of the combined chart. *)
Definition cols : nat := 3.
Definition grid_rows (n_pools : nat) : nat := (n_pools + cols - 1) / cols.

(** Lines 82 to 86: the suffix of the file name for a window of [days]. *)
Definition filename_suffix (days : option Z) : string :=
  match days with
  | Some d => "_" +:+ string_of_Z d +:+ "days"
  | None => ""
  end.

(** Line 138. *)
Definition filename (pool_type : string) (days : option Z) : string :=
  "pool_" +:+ pool_type +:+ filename_suffix days +:+ ".png".

(** Lines 214 to 221: the windows [run_sequential] charts for each pool
    type. *)
Definition windows : list (option Z) := [None; Some 30%Z; Some 7%Z].

End Visual.

(** ** Data of the examples *)

Definition two_records_one_key : list raw_row :=
  [RawRow "2024-01-01 08:00:00"
     (CStr "[{'key': 'Epic', 'value': '0.3 TLM'}, {'key': 'Rare', 'value': '0.5 TLM'}]");
   RawRow "2024-01-01 09:00:00"
     (CStr "[{'key': 'Rare', 'value': '0.25 TLM'}]")].

Definition one_good_one_empty : list raw_row :=
  [RawRow "2024-01-01 10:00:00" (CStr "[{'key': 'Rare', 'value': '0.1 TLM'}]");
   RawRow "2024-01-01 11:00:00" (CStr "[]")].

Definition two_days : list raw_row :=
  [RawRow "2024-01-02 00:00:00"
     (CStr "[{'key': 'Rare', 'value': '0.9 TLM'}, {'key': 'Epic', 'value': '1 TLM'}]");
   RawRow "2024-01-01T00:00:00" (CStr "[{'key': 'Rare', 'value': '0.1 TLM'}]");
   RawRow "2024-01-01 06:00:00" (CStr "{not valid}")].

Definition one_empty : list raw_row :=
  [RawRow "2024-01-01 10:00:00" (CStr "[]")].

Definition sentinel_row : raw_row :=
  RawRow "Invalid timestamp" (CStr "[{'key': 'Rare', 'value': '0.5 TLM'}]").

Definition snapshot (i : string) : Ingest.api_row :=
  Ingest.ApiRow (Some (Ingest.JStr i))
    (Some (Ingest.JStr "2024-01-05T10:00:00")) (Some (Ingest.JOther "[]")).
Definition processed_snapshot (i : string) : Ingest.processed_row :=
  Ingest.ProcessedRow i "2024-01-05 10:00:00" (Ingest.JOther "[]")
    (Ingest.JStr "2024-01-05T10:00:00").
Definition stored (i : string) : string :=
  i +:+ ",2024-01-05 10:00:00,[],2024-01-05T10:00:00" +:+ Csv.line_terminator.
Definition stored_header : string :=
  "id,date,pool,raw_timestamp" +:+ Csv.line_terminator.
(** A store with a byte that is no text in UTF-8. *)
Definition undecodable_store : string :=
  stored_header +:+ stored (String "255" EmptyString).

(** The example of the specification, with its double quotes. *)
Definition rare_json : string :=
  let q := String PyStr.dquote EmptyString in
  "[{" +:+ q +:+ "key" +:+ q +:+ ":" +:+ q +:+ "Rare" +:+ q +:+ ","
       +:+ q +:+ "value" +:+ q +:+ ":" +:+ q +:+ "0.5000 TLM" +:+ q +:+ "}]".

Definition rare_row (d v : string) : raw_row :=
  RawRow d (CStr ("[{'key': 'Rare', 'value': '" +:+ v +:+ " TLM'}]")).

Definition small_amounts : list (gmap string float) :=
  [{[ "Rare" := 0.00006%float ]}; {[ "Rare" := 0.00006%float ]};
   {[ "Rare" := 0%float ]}].

(** * Properties *)

(** ** The date normalizer *)

Section extract_date_facts.

Implicit Types (c : ascii) (d t s : string).

Lemma contains_app c d t :
  PyStr.contains c (d +:+ t) = PyStr.contains c d || PyStr.contains c t.
Proof.
  induction d as [|a d IH]; simpl; [done|].
  rewrite IH. by destruct (PyStr.ascii_eqb a c).
Qed.

Lemma split_absent c s : PyStr.contains c s = false → PyStr.split c s = [s].
Proof.
  induction s as [|a s IH]; simpl; [done|].
  intros [Ha Hs]%orb_false_elim. rewrite Ha, (IH Hs). done.
Qed.

(** The first field of a split is what precedes the first separator. *)
Lemma split_first c d t :
  PyStr.contains c d = false →
  PyStr.split c (d +:+ String c t) !! 0%nat = Some d.
Proof.
  induction d as [|a d IH]; simpl.
  - intros _. unfold PyStr.ascii_eqb. by rewrite bool_decide_eq_true_2.
  - intros [Ha Hd]%orb_false_elim. rewrite Ha.
    specialize (IH Hd).
    destruct (PyStr.split c (d +:+ String c t)) as [|f fs]; [done|].
    simpl in *. congruence.
Qed.

Lemma contains_sep c t : PyStr.contains c (String c t) = true.
Proof. simpl. unfold PyStr.ascii_eqb. by rewrite bool_decide_eq_true_2. Qed.

End extract_date_facts.

(** C5, as the code has it. A string with a "T" is cut at its first "T";
    a string without "T" is cut at its first space; a string with neither
    is returned as it is. No exception leaves [extract_date], which is a
    total function. *)
Theorem extract_date_forms (d t : string) :
  (PyStr.contains "T" d = false → extract_date (d +:+ "T" +:+ t) = d) ∧
  (PyStr.contains " " d = false → PyStr.contains "T" (d +:+ t) = false →
     extract_date (d +:+ " " +:+ t) = d) ∧
  (PyStr.contains "T" d = false → PyStr.contains " " d = false →
     extract_date d = d).
Proof.
  unfold extract_date. split_and!.
  - intros Hd.
    change (d +:+ "T" +:+ t) with (d +:+ String "T" t).
    rewrite contains_app, contains_sep, orb_true_r.
    by rewrite split_first.
  - intros Hd HT.
    change (d +:+ " " +:+ t) with (d +:+ String " " t).
    rewrite contains_app in HT. apply orb_false_elim in HT as [HTd HTt].
    rewrite contains_app. simpl. rewrite HTd, HTt. simpl.
    by rewrite split_first.
  - intros HT Hsp. rewrite HT, (split_absent _ _ Hsp). done.
Qed.

Lemma extract_date_forms_witness :
  extract_date "2024-01-05T10:00:00" = "2024-01-05" ∧
  extract_date "2024-01-05 10:00:00" = "2024-01-05" ∧
  extract_date "20240105" = "20240105".
Proof.
  split_and!.
  - apply (proj1 (extract_date_forms "2024-01-05" "10:00:00")). reflexivity.
  - apply (proj1 (proj2 (extract_date_forms "2024-01-05" "10:00:00")));
      reflexivity.
  - apply (proj2 (proj2 (extract_date_forms "20240105" ""))); reflexivity.
Defined.

(** C5 as stated fails. A date and a time separated by a space and followed
    by a zone name holding a "T" is cut at that "T": the result is neither
    the date nor the input. The sentinel of ingestion is in neither
    date-time form, and is not returned unchanged either. *)
Lemma extract_date_space_form_counterexample :
  (PyStr.contains " " "2024-01-05" = false ∧
   extract_date ("2024-01-05" +:+ " " +:+ "10:00:00 UTC")
     = "2024-01-05 10:00:00 U" ∧
   extract_date ("2024-01-05" +:+ " " +:+ "10:00:00 UTC") ≠ "2024-01-05" ∧
   extract_date ("2024-01-05" +:+ " " +:+ "10:00:00 UTC")
     ≠ "2024-01-05" +:+ " " +:+ "10:00:00 UTC") ∧
  (date_time_form "T" "Invalid timestamp" = false ∧
   date_time_form " " "Invalid timestamp" = false ∧
   extract_date "Invalid timestamp" ≠ "Invalid timestamp").
Proof.
  split; split_and!;
    [reflexivity | reflexivity | discriminate | discriminate
    | reflexivity | reflexivity | discriminate].
Qed.

(** ** Sorting strings *)

Section sorted_facts.

Lemma sorted_perm (xs : list string) : sorted xs ≡ₚ xs.
Proof. apply merge_sort_Permutation. Qed.

Lemma elem_of_sorted (x : string) (xs : list string) : x ∈ sorted xs ↔ x ∈ xs.
Proof. by rewrite sorted_perm. Qed.

Lemma strict_of_NoDup (xs : list string) :
  StronglySorted String.le xs → NoDup xs →
  StronglySorted (strict String.le) xs.
Proof.
  induction 1 as [|x xs Hs IH Hall]; intros Hnd; [constructor|].
  apply NoDup_cons in Hnd as [Hx Hnd].
  constructor; [by apply IH|].
  rewrite Forall_forall in Hall |- *. intros y Hy.
  split; [by apply Hall|].
  intros Hyx. apply Hx.
  assert (x = y) as -> by (apply (anti_symm String.le); auto).
  done.
Qed.

(** [sorted] lists distinct strings in strictly ascending order. *)
Lemma sorted_strict (xs : list string) :
  NoDup xs → StronglySorted (strict String.le) (sorted xs).
Proof.
  intros Hnd. apply strict_of_NoDup.
  - apply StronglySorted_merge_sort; apply _.
  - by rewrite sorted_perm.
Qed.

End sorted_facts.

(** ** The per-key averages of a day *)

Section averages_facts.

Variable py_sum : list float → float.
Implicit Types (k : string) (pools : list (gmap string float)).

Lemma elem_of_all_keys k pools :
  k ∈ all_keys pools ↔ ∃ p, p ∈ pools ∧ is_Some (p !! k).
Proof.
  unfold all_keys.
  assert (∀ acc : gset string,
    k ∈ fold_left (λ acc p, acc ∪ dom p) pools acc
    ↔ k ∈ acc ∨ ∃ p, p ∈ pools ∧ is_Some (p !! k)) as Hgen.
  { induction pools as [|p pools IH]; intros acc; simpl.
    - split; [auto|]. intros [?|(p & Hp & _)]; [done|]. by apply elem_of_nil in Hp.
    - rewrite IH, elem_of_union, elem_of_dom. split.
      + intros [[?|?]|(q & Hq & ?)]; [auto|right; exists p|right; exists q];
          split; auto; [left|by right].
      + intros [?|(q & Hq & ?)]; [auto|].
        apply elem_of_cons in Hq as [->|Hq]; [auto|]. right. by exists q. }
  rewrite Hgen. split; [|auto]. intros [H|?]; [|done]. by apply elem_of_empty in H.
Qed.

Lemma values_of_nil k pools :
  values_of k pools = [] ↔ ∀ p, p ∈ pools → p !! k = None.
Proof.
  unfold values_of. induction pools as [|p pools IH]; simpl.
  - split; [|done]. intros _ p Hp. by apply elem_of_nil in Hp.
  - destruct (p !! k) eqn:Hp.
    + split; [done|]. intros H. specialize (H p (list_elem_of_here _ _)). congruence.
    + rewrite IH. split.
      * intros H q [->|Hq]%elem_of_cons; auto.
      * intros H q Hq. apply H. by right.
Qed.

(** As many values are averaged as there are records with the key. *)
Lemma length_values_of k pools :
  length (values_of k pools)
  = length (filter (λ p : gmap string float, is_Some (p !! k)) pools).
Proof.
  unfold values_of. induction pools as [|p pools IH]; simpl; [done|].
  rewrite filter_cons. destruct (p !! k) eqn:Hp.
  - rewrite decide_True by eauto. simpl. f_equal. exact IH.
  - rewrite decide_False by (by intros [? ?]). done.
Qed.

Lemma avg_entry_of_key pools k e : avg_entry_of py_sum pools k = Some e → key e = k.
Proof.
  unfold avg_entry_of. destruct (values_of k pools); [done|].
  by intros [= <-].
Qed.

Lemma avg_entry_of_Some pools k :
  (∃ p, p ∈ pools ∧ is_Some (p !! k)) →
  avg_entry_of py_sum pools k
  = Some (AvgEntry k (PyFloat.format_4f (average py_sum (values_of k pools))
                        +:+ " TLM")).
Proof.
  intros (p & Hp & Hk). unfold avg_entry_of.
  destruct (values_of k pools) eqn:Hv; [|done].
  rewrite values_of_nil in Hv. rewrite (Hv p Hp) in Hk. by destruct Hk.
Qed.

Lemma omap_total_keys (f : string → option avg_entry) (l : list string) :
  (∀ k, k ∈ l → ∃ e, f k = Some e ∧ key e = k) → key <$> omap f l = l.
Proof.
  induction l as [|k l IH]; intros H; [done|].
  destruct (H k) as (e & Hf & He); [left|]. simpl. rewrite Hf. simpl.
  f_equal; [done|]. apply IH. intros k' Hk'. apply H. by right.
Qed.

(** The keys emitted for a day are all the keys of its records, sorted. *)
Lemma calculate_daily_averages_keys pools :
  key <$> calculate_daily_averages py_sum pools
  = sorted (elements (all_keys pools)).
Proof.
  unfold calculate_daily_averages. destruct pools as [|p pools]; [done|].
  apply omap_total_keys. intros k Hk.
  apply elem_of_sorted, elem_of_elements, elem_of_all_keys in Hk.
  eexists. split; [by apply avg_entry_of_Some|done].
Qed.

Lemma elem_of_calculate_daily_averages pools e :
  e ∈ calculate_daily_averages py_sum pools
  ↔ (∃ p, p ∈ pools ∧ is_Some (p !! key e)) ∧
    avg_entry_of py_sum pools (key e) = Some e.
Proof.
  unfold calculate_daily_averages. destruct pools as [|p pools].
  - split; [by intros ?%elem_of_nil|]. intros [(q & Hq & _) _].
    by apply elem_of_nil in Hq.
  - rewrite list_elem_of_omap. split.
    + intros (k & Hk & He). pose proof (avg_entry_of_key _ _ _ He) as <-.
      split; [|done].
      by apply elem_of_sorted, elem_of_elements, elem_of_all_keys in Hk.
    + intros [Hk He]. exists (key e). split; [|done].
      by apply elem_of_sorted, elem_of_elements, elem_of_all_keys.
Qed.

End averages_facts.

(** ** The result monad *)

Section result_facts.

Lemma bind_Ok {A B} (r : result A) (k : A → result B) (y : B) :
  r ≫= k = Ok y ↔ ∃ x, r = Ok x ∧ k x = Ok y.
Proof.
  destruct r as [x|e|]; simpl.
  - split; [by exists x|]. by intros (? & [= <-] & ?).
  - split; [done|]. by intros (? & ? & ?).
  - split; [done|]. by intros (? & ? & ?).
Qed.

Lemma mapM_Ok_cons {A B} (f : A → result B) (x : A) (l : list A)
    (ys : list B) :
  mapM f (x :: l) = Ok ys ↔
  ∃ y ys', f x = Ok y ∧ mapM f l = Ok ys' ∧ ys = y :: ys'.
Proof.
  change (mapM f (x :: l)) with (f x ≫= λ y, mapM f l ≫= λ k, Ok (y :: k)).
  split.
  - intros (y & Hy & Hk)%bind_Ok.
    destruct (mapM f l) as [ys'| |]; simpl in Hk; [|done..].
    injection Hk as <-. by exists y, ys'.
  - intros (y & ys' & Hy & Hys & ->). by rewrite Hy, Hys.
Qed.

End result_facts.

(** ** Grouping by day *)

Lemma omap_cons {A B} (f : A → option B) (x : A) (l : list A) :
  omap f (x :: l)
  = match f x with Some y => y :: omap f l | None => omap f l end.
Proof. done. Qed.

Lemma filter_fmap {A B} (f : A → B) (P : B → Prop)
    `{!∀ y, Decision (P y)} (l : list A) :
  filter P (f <$> l) = f <$> filter (λ x, P (f x)) l.
Proof.
  induction l as [|x l IH]; [done|].
  rewrite fmap_cons, !filter_cons.
  destruct (decide (P (f x))); [rewrite fmap_cons|]; by rewrite IH.
Qed.

Section grouping_facts.

Implicit Types (rows : list parsed_row) (d : string).

Lemma elem_of_group_days d rows :
  d ∈ group_days rows ↔ ∃ r, r ∈ rows ∧ day r = d.
Proof.
  unfold group_days.
  rewrite elem_of_sorted, elem_of_remove_dups, list_elem_of_fmap.
  split; intros (r & ? & ?); by exists r.
Qed.

Lemma group_days_strict rows :
  StronglySorted (strict String.le) (group_days rows).
Proof. apply sorted_strict, NoDup_remove_dups. Qed.

Lemma group_days_NoDup rows : NoDup (group_days rows).
Proof.
  unfold group_days. rewrite sorted_perm. apply NoDup_remove_dups.
Qed.

Lemma size_pos_of_lookup (m : gmap string float) (k : string) :
  is_Some (m !! k) → 0 < size m.
Proof.
  intros [x Hx]. destruct (decide (size m = 0)) as [H0|]; [|lia].
  apply map_size_empty_inv in H0. by rewrite H0, lookup_empty in Hx.
Qed.

(** Records without keys do not contribute to any key. *)
Lemma values_of_nonempty (k : string) (pools : list (gmap string float)) :
  values_of k (filter (λ m : gmap string float, 0 < size m) pools)
  = values_of k pools.
Proof.
  unfold values_of. induction pools as [|m pools IH]; [done|].
  rewrite filter_cons, (omap_cons _ m pools).
  destruct (decide (0 < size m)) as [|Hn].
  - by rewrite omap_cons, IH.
  - rewrite IH. destruct (m !! k) eqn:Hk; [|done].
    exfalso. apply Hn. eapply size_pos_of_lookup; eauto.
Qed.

End grouping_facts.

(** ** The summary table *)

Section summary_facts.

Variable py_sum : list float → float.
Implicit Types (df : list raw_row) (rows parsed : list parsed_row).

Lemma elem_of_daily_summary rows row :
  row ∈ daily_summary py_sum rows ↔
  ∃ i, group_days rows !! i = Some (summary_day row) ∧
       row = SummaryRow (S i) (summary_day row)
               (calculate_daily_averages py_sum
                  (parsed_pool <$> group rows (summary_day row)))
               (length (group rows (summary_day row))).
Proof.
  unfold daily_summary. rewrite elem_of_lookup_imap. split.
  - intros (i & d & -> & Hi). by exists i.
  - intros (i & Hi & Hrow). exists i, (summary_day row). done.
Qed.

Lemma daily_summary_days rows :
  summary_day <$> daily_summary py_sum rows = group_days rows.
Proof.
  unfold daily_summary. rewrite fmap_imap.
  rewrite (imap_ext _ (λ _ d, d)) by done.
  by rewrite (imap_const id), list_fmap_id.
Qed.

Lemma imap_succ_seq {A} (l : list A) (j : nat) :
  imap (λ i _, S (j + i)) l = seq (S j) (length l).
Proof.
  revert j. induction l as [|x l IH]; intros j; [done|].
  rewrite imap_cons. simpl. f_equal; [f_equal; lia|].
  rewrite <- (IH (S j)). apply imap_ext. intros i y _. simpl. f_equal. lia.
Qed.

Lemma daily_summary_ids rows :
  day_id <$> daily_summary py_sum rows
  = seq 1 (length (daily_summary py_sum rows)).
Proof.
  unfold daily_summary. rewrite fmap_imap, length_imap.
  rewrite <- (imap_succ_seq _ 0). by apply imap_ext.
Qed.

(** The frame that [process_csv_data] summarizes. *)
Lemma process_csv_data_Some df out :
  process_csv_data py_sum df = Ok (Some out) →
  ∃ parsed, mapM parse_row df = Ok parsed ∧
            out = daily_summary py_sum (valid_rows parsed).
Proof.
  unfold process_csv_data, summarize. destruct df as [|r df]; [done|].
  destruct (mapM parse_row (r :: df)) as [parsed|e|]; simpl.
  - intros [= <-]. by exists parsed.
  - done.
  - done.
Qed.

(** A frame that is not empty and whose pool fields all parse is
    summarized. *)
Lemma process_csv_data_returns df :
  df ≠ [] →
  Forall (λ r, ∃ m, parse_pool_data (pool r) = Ok m) df →
  ∃ out, process_csv_data py_sum df = Ok (Some out).
Proof.
  intros Hne Hall.
  assert (∃ parsed, mapM parse_row df = Ok parsed) as [parsed Hparsed].
  { clear Hne. induction Hall as [|r df (m & Hm) _ (ps & Hps)].
    - by exists [].
    - eexists. apply mapM_Ok_cons. do 2 eexists. split_and!; [|exact Hps|done].
      unfold parse_row. by rewrite Hm. }
  unfold process_csv_data, summarize. destruct df as [|r df]; [done|].
  rewrite Hparsed. simpl. by eexists.
Qed.

Lemma mapM_parse_row_records df parsed d :
  mapM parse_row df = Ok parsed →
  parsed_pool <$> filter (λ r, day r = d) parsed = day_records df d.
Proof.
  revert parsed. induction df as [|r df IH]; intros parsed.
  - by intros [= <-].
  - intros (p & ps & Hp & Hps & ->)%mapM_Ok_cons.
    apply bind_Ok in Hp as (m & Hm & [= <-]).
    specialize (IH ps Hps).
    rewrite filter_cons. unfold day_records. rewrite omap_cons, Hm. simpl.
    case_bool_decide as Hd.
    + rewrite decide_True by done. rewrite fmap_cons. f_equal. exact IH.
    + rewrite decide_False by done. exact IH.
Qed.

(** The dicts of a group are the non-empty dicts of the rows of its day. *)
Lemma group_valid_rows_records df parsed d :
  mapM parse_row df = Ok parsed →
  parsed_pool <$> group (valid_rows parsed) d
  = filter (λ m : gmap string float, 0 < size m) (day_records df d).
Proof.
  intros H. rewrite <- (mapM_parse_row_records _ _ _ H).
  unfold group, valid_rows.
  rewrite filter_fmap, !list_filter_filter. f_equal.
  apply list_filter_iff. intros r. tauto.
Qed.

Lemma elem_of_valid_day df parsed d :
  mapM parse_row df = Ok parsed →
  (∃ r, r ∈ valid_rows parsed ∧ day r = d)
  ↔ ∃ m, m ∈ day_records df d ∧ 0 < size m.
Proof.
  intros H. rewrite <- (mapM_parse_row_records _ _ _ H). unfold valid_rows.
  split.
  - intros (r & [Hs Hr]%list_elem_of_filter & Hd). exists (parsed_pool r).
    split; [|done]. apply list_elem_of_fmap. exists r. split; [done|].
    by apply list_elem_of_filter.
  - intros (m & (r & -> & [Hd Hr]%list_elem_of_filter)%list_elem_of_fmap & Hs).
    exists r. split; [|done]. by apply list_elem_of_filter.
Qed.

Lemma summary_row_count df parsed row :
  mapM parse_row df = Ok parsed →
  row ∈ daily_summary py_sum (valid_rows parsed) →
  numberofentries row
  = length (filter (λ m : gmap string float, 0 < size m)
              (day_records df (summary_day row))).
Proof.
  intros Hparsed (i & _ & Hrow)%elem_of_daily_summary.
  rewrite <- (group_valid_rows_records _ _ _ Hparsed), length_fmap.
  by rewrite Hrow.
Qed.

End summary_facts.

(** ** The aggregate table *)

(** C1. For every row of the output and every key of a record of its day,
    the entry emitted for the key is the formatted quotient of the sum of
    the key's values over the records of the day that have the key by the
    number of those records; records without the key count in neither. *)
Theorem average_over_records_with_key
    (py_sum : list float → float) (df : list raw_row)
    (out : list summary_row) (row : summary_row) (k : string) :
  process_csv_data py_sum df = Ok (Some out) →
  row ∈ out →
  (∃ m, m ∈ day_records df (summary_day row) ∧ is_Some (m !! k)) →
  let records := day_records df (summary_day row) in
  let values := omap (λ m : gmap string float, m !! k) records in
  let count :=
    length (filter (λ m : gmap string float, is_Some (m !! k)) records) in
  length values = count ∧ 0 < count ∧
  ∀ e, e ∈ avgpool row ∧ key e = k ↔
       e = AvgEntry k
             (PyFloat.format_4f (PyFloat.div_len (py_sum values) count)
                +:+ " TLM").
Proof.
  intros (parsed & Hparsed & ->)%process_csv_data_Some Hrow (m & Hm & Hk).
  intros records values count.
  assert (length values = count) as Hlen by apply length_values_of.
  assert (0 < count) as Hpos.
  { subst count. destruct (filter _ records) eqn:Hf; simpl; [|lia].
    assert (m ∈ filter (λ m : gmap string float, is_Some (m !! k)) records)
      as Hin by (by apply list_elem_of_filter).
    rewrite Hf in Hin. by apply elem_of_nil in Hin. }
  split_and!; [done..|].
  apply elem_of_daily_summary in Hrow as (i & _ & Hrow).
  set (pools := parsed_pool <$> group (valid_rows parsed) (summary_day row)) in *.
  assert (pools = filter (λ m : gmap string float, 0 < size m) records) as Hpools
    by (by apply group_valid_rows_records).
  assert (values_of k pools = values) as Hvalues
    by (rewrite Hpools; apply values_of_nonempty).
  assert (∃ p, p ∈ pools ∧ is_Some (p !! k)) as Hex.
  { exists m. split; [|done]. rewrite Hpools. apply list_elem_of_filter.
    split; [|done]. by eapply size_pos_of_lookup. }
  pose proof (avg_entry_of_Some py_sum pools k Hex) as Hentry.
  unfold average in Hentry. rewrite Hvalues, Hlen in Hentry.
  intros e. rewrite Hrow. simpl. rewrite elem_of_calculate_daily_averages.
  split.
  - intros [[_ He] <-]. rewrite Hentry in He. by injection He.
  - intros ->. simpl. done.
Qed.

Lemma average_over_records_with_key_witness :
  let records := day_records two_records_one_key "2024-01-01" in
  let values := omap (λ m : gmap string float, m !! "Epic") records in
  let count :=
    length (filter (λ m : gmap string float, is_Some (m !! "Epic")) records) in
  length values = count ∧ 0 < count ∧
  ∀ e, e ∈ [AvgEntry "Epic" "0.3000 TLM"; AvgEntry "Rare" "0.3750 TLM"]
       ∧ key e = "Epic"
       ↔ e = AvgEntry "Epic"
               (PyFloat.format_4f
                  (PyFloat.div_len (PyFloat.sum_left values) count)
                  +:+ " TLM").
Proof.
  refine (average_over_records_with_key PyFloat.sum_left
    two_records_one_key
    [SummaryRow 1 "2024-01-01"
       [AvgEntry "Epic" "0.3000 TLM"; AvgEntry "Rare" "0.3750 TLM"] 2]
    (SummaryRow 1 "2024-01-01"
       [AvgEntry "Epic" "0.3000 TLM"; AvgEntry "Rare" "0.3750 TLM"] 2)
    "Epic" _ _ _).
  - vm_compute. reflexivity.
  - apply list_elem_of_here.
  - exists {[ "Epic" := 0.3%float; "Rare" := 0.5%float ]}. split.
    + vm_compute. apply list_elem_of_here.
    + vm_compute. eauto.
Defined.

(** C2, as the code has it. The entry count of an output row is the number
    of rows of the raw store whose normalized day is the row's day and
    whose parsed dict is not empty; it is never zero. *)
Theorem numberofentries_counts_nonempty
    (py_sum : list float → float) (df : list raw_row)
    (out : list summary_row) (row : summary_row) :
  process_csv_data py_sum df = Ok (Some out) →
  row ∈ out →
  numberofentries row
  = length (filter (λ m : gmap string float, 0 < size m)
              (day_records df (summary_day row))) ∧
  0 < numberofentries row.
Proof.
  intros (parsed & Hparsed & ->)%process_csv_data_Some Hrow.
  split; [by apply (summary_row_count py_sum df parsed)|].
  apply elem_of_daily_summary in Hrow as (i & Hi & ->). simpl.
  apply list_elem_of_lookup_2, elem_of_group_days in Hi as (r & Hr & Hd).
  assert (r ∈ group (valid_rows parsed) (summary_day row)) as Hin
    by (by apply list_elem_of_filter).
  destruct (group _ _); [by apply elem_of_nil in Hin|simpl; lia].
Qed.

Lemma numberofentries_counts_nonempty_witness :
  1 = length (filter (λ m : gmap string float, 0 < size m)
                (day_records one_good_one_empty "2024-01-01")) ∧ 0 < 1.
Proof.
  refine (numberofentries_counts_nonempty PyFloat.sum_left one_good_one_empty
    [SummaryRow 1 "2024-01-01" [AvgEntry "Rare" "0.1000 TLM"] 1]
    (SummaryRow 1 "2024-01-01" [AvgEntry "Rare" "0.1000 TLM"] 1) _ _).
  - vm_compute. reflexivity.
  - apply list_elem_of_here.
Defined.

(** C2 as stated fails: a pool field that decodes without any failure to
    the empty list is parsed successfully, yet its row is not counted. *)
Lemma numberofentries_counterexample :
  process_csv_data PyFloat.sum_left one_good_one_empty
    = Ok (Some [SummaryRow 1 "2024-01-01" [AvgEntry "Rare" "0.1000 TLM"] 1]) ∧
  length (filter (λ r, extract_date (date r) = "2024-01-01"
                       ∧ parsed_successfully (pool r))
            one_good_one_empty) = 2.
Proof. split; vm_compute; reflexivity. Qed.

(** C8, as the code has it. The output has one row for each day that has
    a row of the raw store with a non-empty parsed dict, and no other row;
    the days ascend strictly, the ids are 1, 2, 3, ... in that order, and
    the keys of each row ascend strictly. *)
Theorem summary_rows_sorted_and_numbered
    (py_sum : list float → float) (df : list raw_row)
    (out : list summary_row) :
  process_csv_data py_sum df = Ok (Some out) →
  StronglySorted (strict String.le) (summary_day <$> out) ∧
  (∀ d, d ∈ summary_day <$> out
        ↔ ∃ m, m ∈ day_records df d ∧ 0 < size m) ∧
  day_id <$> out = seq 1 (length out) ∧
  ∀ row, row ∈ out →
         StronglySorted (strict String.le) (key <$> avgpool row).
Proof.
  intros (parsed & Hparsed & ->)%process_csv_data_Some.
  rewrite daily_summary_days. split_and!.
  - apply group_days_strict.
  - intros d. rewrite elem_of_group_days. by apply elem_of_valid_day.
  - apply daily_summary_ids.
  - intros row (i & _ & ->)%elem_of_daily_summary. simpl.
    rewrite calculate_daily_averages_keys.
    apply sorted_strict, NoDup_elements.
Qed.

Lemma summary_rows_sorted_and_numbered_witness :
  StronglySorted (strict String.le) ["2024-01-01"; "2024-01-02"] ∧
  (∀ d, d ∈ ["2024-01-01"; "2024-01-02"]
        ↔ ∃ m, m ∈ day_records two_days d ∧ 0 < size m) ∧
  [1; 2] = seq 1 2 ∧
  ∀ row,
    row ∈ [SummaryRow 1 "2024-01-01" [AvgEntry "Rare" "0.1000 TLM"] 1;
           SummaryRow 2 "2024-01-02"
             [AvgEntry "Epic" "1.0000 TLM"; AvgEntry "Rare" "0.9000 TLM"] 1] →
    StronglySorted (strict String.le) (key <$> avgpool row).
Proof.
  refine (summary_rows_sorted_and_numbered PyFloat.sum_left two_days
    [SummaryRow 1 "2024-01-01" [AvgEntry "Rare" "0.1000 TLM"] 1;
     SummaryRow 2 "2024-01-02"
       [AvgEntry "Epic" "1.0000 TLM"; AvgEntry "Rare" "0.9000 TLM"] 1] _).
  vm_compute. reflexivity.
Defined.

(** C8 as stated fails: a pool field that decodes without any failure to
    the empty list is parsed successfully, yet a day that has only such
    records gets no row. *)
Lemma empty_pool_day_counterexample :
  Forall (λ r, extract_date (date r) = "2024-01-01"
               ∧ parsed_successfully (pool r) = true) one_empty ∧
  day_records one_empty "2024-01-01" = [∅] ∧
  process_csv_data PyFloat.sum_left one_empty = Ok (Some []).
Proof.
  split_and!; [|vm_compute; reflexivity..].
  repeat constructor; vm_compute; reflexivity.
Qed.

(** C10. A row of the raw store dated with the sentinel of ingestion is
    not dropped: its normalized day is "Invalid", and when its parsed dict
    is not empty the output has exactly one row of day "Invalid", which
    counts all such rows. *)
Theorem invalid_timestamp_rows_are_aggregated
    (py_sum : list float → float) (df : list raw_row)
    (out : list summary_row) (r : raw_row) (m : gmap string float) :
  process_csv_data py_sum df = Ok (Some out) →
  r ∈ df →
  date r = "Invalid timestamp" →
  parse_pool_data (pool r) = Ok m →
  0 < size m →
  extract_date (date r) = "Invalid" ∧
  m ∈ day_records df "Invalid" ∧
  ∃ row, row ∈ out ∧ summary_day row = "Invalid" ∧
         numberofentries row
         = length (filter (λ m : gmap string float, 0 < size m)
                     (day_records df "Invalid")) ∧
         ∀ row', row' ∈ out → summary_day row' = "Invalid" → row' = row.
Proof.
  intros Hout Hr Hdate Hm Hsize.
  assert (extract_date (date r) = "Invalid") as Hday by (by rewrite Hdate).
  assert (m ∈ day_records df "Invalid") as Hin.
  { apply list_elem_of_omap. exists r. split; [done|].
    by rewrite Hday, bool_decide_eq_true_2, Hm. }
  split_and!; [done..|].
  apply process_csv_data_Some in Hout as (parsed & Hparsed & ->).
  assert ("Invalid" ∈ group_days (valid_rows parsed)) as Hd.
  { apply elem_of_group_days, (elem_of_valid_day _ _ _ Hparsed). by exists m. }
  apply list_elem_of_lookup in Hd as (i & Hi).
  set (g := group (valid_rows parsed) "Invalid").
  set (row := SummaryRow (S i) "Invalid"
                (calculate_daily_averages py_sum (parsed_pool <$> g)) (length g)).
  assert (row ∈ daily_summary py_sum (valid_rows parsed)) as Hrow
    by (apply elem_of_daily_summary; by exists i).
  exists row. split_and!; [exact Hrow|done| |].
  - by rewrite (summary_row_count _ _ _ _ Hparsed Hrow).
  - intros row' (j & Hj & Hrow')%elem_of_daily_summary Hd'.
    rewrite Hd' in Hj, Hrow'.
    assert (i = j) as -> by (eapply NoDup_lookup; eauto using group_days_NoDup).
    done.
Qed.

Lemma invalid_timestamp_rows_are_aggregated_witness :
  extract_date "Invalid timestamp" = "Invalid" ∧
  ({[ "Rare" := 0.5%float ]} : gmap string float)
    ∈ day_records [sentinel_row; sentinel_row] "Invalid" ∧
  ∃ row, row ∈ [SummaryRow 1 "Invalid" [AvgEntry "Rare" "0.5000 TLM"] 2] ∧
         summary_day row = "Invalid" ∧
         numberofentries row
         = length (filter (λ m : gmap string float, 0 < size m)
                     (day_records [sentinel_row; sentinel_row] "Invalid")) ∧
         ∀ row', row' ∈ [SummaryRow 1 "Invalid" [AvgEntry "Rare" "0.5000 TLM"] 2] →
                 summary_day row' = "Invalid" → row' = row.
Proof.
  refine (invalid_timestamp_rows_are_aggregated PyFloat.sum_left
    [sentinel_row; sentinel_row]
    [SummaryRow 1 "Invalid" [AvgEntry "Rare" "0.5000 TLM"] 2]
    sentinel_row {[ "Rare" := 0.5%float ]} _ _ _ _ _).
  - vm_compute. reflexivity.
  - apply list_elem_of_here.
  - reflexivity.
  - vm_compute. reflexivity.
  - vm_compute. lia.
Defined.

(** ** The csv reader and writer *)

Module CsvFacts.
Import Csv.

Local Abbreviation un := universal_newlines.

Ltac chars :=
  unfold special, PyStr.ascii_eqb, PyStr.dquote, comma, CR, LF in *;
  repeat case_bool_decide; simplify_eq; try done.

Lemma append_cons (c : ascii) (a b : string) :
  String c a +:+ b = String c (a +:+ b).
Proof. done. Qed.

Lemma append_nil_l (b : string) : "" +:+ b = b.
Proof. done. Qed.

Lemma append_nil_r (a : string) : a +:+ "" = a.
Proof. induction a as [|c a IH]; [done|]. by rewrite append_cons, IH. Qed.

Lemma append_assoc (a b c : string) : (a +:+ b) +:+ c = a +:+ (b +:+ c).
Proof. induction a as [|x a IH]; [done|]. by rewrite !append_cons, IH. Qed.

Lemma append_snoc (a : string) (c : ascii) (b : string) :
  (a +:+ String c "") +:+ b = a +:+ String c b.
Proof. by rewrite append_assoc, append_cons, append_nil_l. Qed.

(** *** Universal newlines *)

Lemma un_app b x y : un b (x +:+ y) = un b x +:+ un (last_cr b x) y.
Proof.
  revert b. induction x as [|c x IH]; intros b; [done|].
  simpl. chars; destruct b; simpl; by rewrite IH.
Qed.

Lemma un_flag b y : starts_lf y = false → un b y = un false y.
Proof. destruct y as [|c y]; [done|]. simpl. intros H. destruct b; chars. Qed.

Lemma needs_quotes_cons c f :
  needs_quotes (String c f) = false → special c = false ∧ needs_quotes f = false.
Proof. simpl. by intros ?%orb_false_elim. Qed.

Lemma un_plain b f : needs_quotes f = false → un b f = f.
Proof.
  revert b. induction f as [|c f IH]; intros b; [done|].
  intros [Hc Hf]%needs_quotes_cons. simpl.
  revert Hc. chars; intros _; by rewrite IH.
Qed.

Lemma un_no_cr f : PyStr.contains CR f = false → un false f = f.
Proof.
  induction f as [|c f IH]; [done|]. simpl.
  unfold PyStr.ascii_eqb. repeat case_bool_decide; simpl; try done;
    intros Hf; subst; by rewrite IH.
Qed.

Lemma un_doubled b f : un b (doubled f) = doubled (un b f).
Proof.
  revert b. induction f as [|c f IH]; intros b; [done|].
  simpl. chars; simpl; chars; try (by rewrite IH).
  destruct b; simpl; chars; by rewrite IH.
Qed.

Lemma un_quoted b f rest :
  un b (quoted f +:+ rest) = quoted (un false f) +:+ un false rest.
Proof.
  unfold quoted. simpl. chars. f_equal.
  rewrite !append_snoc, un_app, un_doubled. f_equal.
  simpl. chars. by rewrite append_cons, append_snoc.
Qed.

Lemma un_write_field b f rest :
  starts_lf rest = false →
  un b (write_field f +:+ rest) = form f +:+ un false rest.
Proof.
  intros Hrest. unfold write_field, form.
  destruct (needs_quotes f) eqn:Hq; [apply un_quoted|].
  rewrite un_app, (un_plain _ _ Hq). f_equal. by apply un_flag.
Qed.

Lemma un_field_comma b f X :
  un b (write_field f +:+ String comma X)
  = form f +:+ String comma (un false X).
Proof. rewrite un_write_field by (simpl; chars). f_equal. Qed.

Lemma un_field_end b f X :
  un b (write_field f +:+ line_terminator +:+ X)
  = form f +:+ String LF (un false X).
Proof. rewrite un_write_field by (simpl; chars). f_equal. Qed.

Lemma length_un b f : String.length (un b f) ≤ String.length f.
Proof.
  revert b. induction f as [|c f IH]; intros b; [done|].
  simpl. chars; try destruct b; simpl;
    match goal with |- context [un ?b' f] => specialize (IH b') end; lia.
Qed.

(** *** The reader on what the writer wrote *)

Lemma scan_app s a b :
  scan s (a +:+ b)
  = let '(r1, s1) := scan s a in
    let '(r2, s2) := scan s1 b in (r1 ++ r2, s2).
Proof.
  revert s. induction a as [|c a IH]; intros s.
  - rewrite append_nil_l. simpl. by destruct (scan s b).
  - rewrite append_cons. simpl. destruct (step s c) as [rec s']. rewrite IH.
    destruct (scan s' a) as [r1 s1]. destruct (scan s1 b) as [r2 s2].
    by rewrite app_assoc.
Qed.

Lemma scan_plain f fs a :
  needs_quotes f = false →
  scan (Reader InField fs a) f = ([], Reader InField fs (a +:+ f)).
Proof.
  revert a. induction f as [|c f IH]; intros a.
  - by rewrite append_nil_r.
  - intros [Hc Hf]%needs_quotes_cons. simpl.
    assert (step (Reader InField fs a) c
            = (None, Reader InField fs (a +:+ String c ""))) as ->.
    { unfold step, add_char. simpl. revert Hc. chars. }
    rewrite (IH _ Hf). by rewrite append_snoc.
Qed.

Lemma scan_plain_start ph fs c f :
  starting ph →
  needs_quotes (String c f) = false →
  scan (Reader ph fs "") (String c f) = ([], Reader InField fs (String c f)).
Proof.
  intros Hph [Hc Hf]%needs_quotes_cons. simpl.
  assert (step (Reader ph fs "") c = (None, Reader InField fs (String c "")))
    as ->.
  { unfold step, add_char. destruct Hph as [-> | ->]; simpl; revert Hc; chars. }
  by rewrite (scan_plain _ _ _ Hf).
Qed.

Lemma step_quoted_dquote fs a :
  step (Reader InQuotedField fs a) PyStr.dquote
  = (None, Reader QuoteInQuotedField fs a).
Proof. unfold step. simpl. chars. Qed.

Lemma step_quote_dquote fs a :
  step (Reader QuoteInQuotedField fs a) PyStr.dquote
  = (None, Reader InQuotedField fs (a +:+ String PyStr.dquote "")).
Proof. unfold step. simpl. chars. Qed.

Lemma step_quoted_other fs a c :
  c ≠ PyStr.dquote →
  step (Reader InQuotedField fs a) c
  = (None, Reader InQuotedField fs (a +:+ String c "")).
Proof. intros Hc. unfold step. simpl. chars. Qed.

Lemma scan_doubled g fs a :
  scan (Reader InQuotedField fs a) (doubled g)
  = ([], Reader InQuotedField fs (a +:+ g)).
Proof.
  revert a. induction g as [|c g IH]; intros a.
  - by rewrite append_nil_r.
  - simpl doubled. unfold PyStr.ascii_eqb. case_bool_decide as Hc.
    + subst c. cbn [scan].
      rewrite step_quoted_dquote, step_quote_dquote, IH.
      by rewrite append_snoc.
    + cbn [scan]. rewrite step_quoted_other by done. rewrite IH.
      by rewrite append_snoc.
Qed.

Lemma scan_quoted ph fs g :
  starting ph →
  scan (Reader ph fs "") (quoted g) = ([], Reader QuoteInQuotedField fs g).
Proof.
  intros Hph. unfold quoted. cbn [scan].
  assert (step (Reader ph fs "") PyStr.dquote
          = (None, Reader InQuotedField fs "")) as ->.
  { unfold step. destruct Hph as [-> | ->]; simpl; chars. }
  rewrite scan_app, scan_doubled. simpl.
  unfold step. simpl. chars.
Qed.

Lemma scan_form ph fs f :
  starting ph →
  ∃ s, scan (Reader ph fs "") (form f) = ([], s) ∧ holds s fs (un false f) ∧
       (phase_of s = StartRecord → ph = StartRecord ∧ write_field f = "").
Proof.
  intros Hph. unfold form, write_field.
  destruct (needs_quotes f) eqn:Hq.
  - eexists. split; [by apply scan_quoted|]. split; [|done].
    unfold holds. simpl. tauto.
  - rewrite (un_plain _ _ Hq). destruct f as [|c f].
    + eexists. split; [done|]. split.
      * unfold holds. simpl. destruct Hph as [-> | ->]; tauto.
      * simpl. intros ->. done.
    + eexists. split; [by apply scan_plain_start|]. split; [|done].
      unfold holds. simpl. tauto.
Qed.

Lemma step_comma s fs g :
  holds s fs g → step s comma = (None, Reader StartField (fs ++ [g]) "").
Proof.
  destruct s as [ph fs' g']. intros (Hfs & Hg & Hph). simpl in *. subst.
  unfold step, save. simpl. destruct Hph as [->|[->|[->| ->]]]; chars.
Qed.

Lemma step_lf s fs g :
  holds s fs g → phase_of s ≠ StartRecord →
  step s LF = (Some (fs ++ [g]), start).
Proof.
  destruct s as [ph fs' g']. intros (Hfs & Hg & Hph) Hne. simpl in *. subst.
  unfold step, save. simpl. destruct Hph as [->|[->|[->| ->]]]; chars.
Qed.

Lemma scan_field_comma b ph fs f X :
  starting ph →
  scan (Reader ph fs "") (un b (write_field f +:+ String comma X))
  = scan (Reader StartField (fs ++ [un false f]) "") (un false X).
Proof.
  intros Hph. rewrite un_field_comma, scan_app.
  destruct (scan_form ph fs f Hph) as (s & -> & Hs & _).
  cbn [scan]. rewrite (step_comma _ _ _ Hs).
  by destruct (scan _ (un false X)).
Qed.

Lemma scan_field_end b ph fs f X :
  starting ph →
  ph = StartField ∨ write_field f ≠ "" →
  scan (Reader ph fs "") (un b (write_field f +:+ line_terminator +:+ X))
  = let '(rs, s) := scan start (un false X) in
    ((fs ++ [un false f]) :: rs, s).
Proof.
  intros Hph Hne. rewrite un_field_end, scan_app.
  destruct (scan_form ph fs f Hph) as (s & -> & Hs & Hstart).
  cbn [scan]. rewrite (step_lf _ _ _ Hs).
  - by destruct (scan _ (un false X)).
  - intros [-> Hw]%Hstart. by destruct Hne.
Qed.

Lemma scan_fields b fs cells X :
  cells ≠ [] →
  scan (Reader StartField fs "")
    (un b (join_fields cells +:+ line_terminator +:+ X))
  = let '(rs, s) := scan start (un false X) in
    ((fs ++ (un false <$> cells)) :: rs, s).
Proof.
  revert b fs. induction cells as [|f cells IH]; intros b fs Hne; [done|].
  destruct cells as [|f' cells].
  - simpl join_fields. rewrite scan_field_end; [done|by right|by left].
  - change (join_fields (f :: f' :: cells))
      with (write_field f +:+ String comma (join_fields (f' :: cells))).
    rewrite append_assoc, append_cons.
    rewrite scan_field_comma by (by right).
    rewrite IH by done.
    destruct (scan start (un false X)) as [rs s].
    by rewrite <- app_assoc.
Qed.

Lemma write_field_nonempty f : f ≠ "" → write_field f ≠ "".
Proof. unfold write_field. by destruct (needs_quotes f). Qed.

(** A written record is read back as one record, whose fields are those
    written, read with universal newlines. *)
Lemma un_line_terminator b X :
  un b (line_terminator +:+ X) = String LF (un false X).
Proof.
  unfold line_terminator. rewrite !append_cons, append_nil_l. simpl. chars.
Qed.

Lemma scan_write_row b cells X :
  scan start (un b (write_row cells +:+ X))
  = let '(rs, s) := scan start (un false X) in
    (read_back cells :: rs, s).
Proof.
  unfold write_row, read_back. case_bool_decide as Hone.
  - subst cells. rewrite append_assoc, un_quoted, un_line_terminator.
    change (un false "") with "". rewrite scan_app. unfold start at 1.
    rewrite scan_quoted by (by left). cbn [scan].
    rewrite (step_lf _ [] "") by (unfold holds; simpl; tauto || done).
    by destruct (scan start (un false X)).
  - destruct cells as [|f cells].
    + simpl join_fields. rewrite append_nil_l, un_line_terminator.
      cbn [scan]. unfold step at 1. simpl. chars.
    + rewrite append_assoc. destruct cells as [|f' cells].
      * simpl join_fields. unfold start at 1.
        rewrite scan_field_end; [done|by left|].
        right. apply write_field_nonempty. congruence.
      * change (join_fields (f :: f' :: cells))
          with (write_field f +:+ String comma (join_fields (f' :: cells))).
        rewrite append_assoc, append_cons. unfold start at 1.
        rewrite scan_field_comma by (by left).
        rewrite scan_fields by done. done.
Qed.

(** A written table is read back record by record. *)
Lemma scan_write_rows b rows :
  scan start (un b (write_rows rows)) = (read_back <$> rows, start).
Proof.
  revert b. induction rows as [|cells rows IH]; intros b; [done|].
  simpl write_rows. rewrite scan_write_row, IH. done.
Qed.

Lemma starts_lf_write_rows rows : starts_lf (write_rows rows) = false.
Proof.
  destruct rows as [|cells rows]; [done|]. simpl write_rows.
  unfold write_row. case_bool_decide.
  { unfold quoted. rewrite !append_cons. simpl. chars. }
  destruct cells as [|f cells].
  { simpl join_fields. unfold line_terminator.
    rewrite append_nil_l, !append_cons. simpl. chars. }
  assert (∀ Y, starts_lf (write_field f +:+ String comma Y) = false
               ∧ starts_lf (write_field f +:+ line_terminator +:+ Y) = false)
    as Hf.
  { intros Y. unfold write_field. destruct (needs_quotes f) eqn:Hq.
    - unfold quoted. rewrite !append_cons. simpl. chars.
    - destruct f as [|c f].
      + rewrite !append_nil_l. unfold line_terminator.
        rewrite !append_cons. simpl. chars.
      + apply needs_quotes_cons in Hq as [Hc _]. rewrite !append_cons.
        simpl. revert Hc. chars. }
  destruct cells as [|f' cells].
  - simpl join_fields. rewrite append_assoc. apply Hf.
  - change (join_fields (f :: f' :: cells))
      with (write_field f +:+ String comma (join_fields (f' :: cells))).
    rewrite !append_assoc, append_cons. apply Hf.
Qed.

Lemma at_start_spec s : at_start s = true → s = start.
Proof.
  destruct s as [[] [|f fs] [|c g]]; by try discriminate.
Qed.

(** Appending written records to a text that ends where a record ends
    adds these records to those the text holds. *)
Lemma records_append old rows :
  complete old = true →
  records (old +:+ write_rows rows)
  = records old ++ (read_back <$> rows)
  ∧ complete (old +:+ write_rows rows) = true.
Proof.
  unfold complete, records. intros Hold%at_start_spec.
  rewrite un_app, (un_flag _ _ (starts_lf_write_rows rows)), scan_app.
  destruct (scan start (un false old)) as [r1 s1]. simpl in Hold. subst s1.
  rewrite scan_write_rows. simpl. split; [|done].
  by rewrite !app_nil_r.
Qed.

(** *** Modelled text *)

Lemma modelled_app a b : modelled (a +:+ b) = modelled a && modelled b.
Proof.
  induction a as [|c a IH]; [done|]. rewrite append_cons. simpl.
  by rewrite IH, andb_assoc.
Qed.

Lemma modelled_doubled f : modelled f = true → modelled (doubled f) = true.
Proof.
  induction f as [|c f IH]; [done|]. simpl.
  intros [Hc Hf]%andb_prop. unfold PyStr.ascii_eqb. case_bool_decide; simpl;
    rewrite Hc, IH by done; done.
Qed.

Lemma modelled_write_field f : modelled f = true → modelled (write_field f) = true.
Proof.
  intros Hf. unfold write_field. destruct (needs_quotes f); [|done].
  unfold quoted. simpl. rewrite modelled_app, modelled_doubled by done. done.
Qed.

Lemma modelled_join_fields cells :
  forallb modelled cells = true → modelled (join_fields cells) = true.
Proof.
  induction cells as [|f cells IH]; [done|].
  intros [Hf Hcells]%andb_prop. destruct cells as [|f' cells].
  - by apply modelled_write_field.
  - change (join_fields (f :: f' :: cells))
      with (write_field f +:+ String comma (join_fields (f' :: cells))).
    rewrite modelled_app, modelled_write_field by done.
    cbn [modelled andb]. by rewrite IH.
Qed.

Lemma modelled_write_row cells :
  forallb modelled cells = true → modelled (write_row cells) = true.
Proof.
  intros Hcells. unfold write_row. rewrite modelled_app.
  case_bool_decide; [done|]. by rewrite modelled_join_fields.
Qed.

Lemma modelled_write_rows rows :
  forallb (forallb modelled) rows = true → modelled (write_rows rows) = true.
Proof.
  induction rows as [|cells rows IH]; [done|].
  intros [Hc Hrows]%andb_prop. simpl write_rows.
  by rewrite modelled_app, modelled_write_row, IH.
Qed.

Lemma oversized_un cells :
  oversized cells = false → oversized (read_back cells) = false.
Proof.
  unfold oversized, read_back. induction cells as [|f cells IH]; [done|].
  rewrite fmap_cons. cbn [existsb].
  intros [Hf Hcells]%orb_false_elim. rewrite IH by done.
  rewrite orb_false_r. apply Z.ltb_ge. apply Z.ltb_ge in Hf.
  pose proof (length_un false f). lia.
Qed.

End CsvFacts.

(** ** Ingestion into the raw store *)

Module IngestFacts.
Import Ingest.

Section run_facts.

Variable iso_format : string → option string.
Implicit Types (w : env) (csv_file : store) (header : list string)
  (records : list (list string)) (rows processed : list processed_row).

Lemma process_nil : process iso_format [] = ([], []).
Proof. done. Qed.

(** A run that has rows to store: reading, then writing. *)
Lemma run_rows w csv_file data processed log :
  fetch w = FetchRows data →
  process iso_format data = (processed, log) →
  processed ≠ [] →
  run iso_format w csv_file =
  match read_existing csv_file (read_fault w) with
  | Ok (existing_ids, log') =>
      match new_rows processed existing_ids with
      | [] => Ok (csv_file, log ++ log' ++ [NoNewEntries (size existing_ids)])
      | rows => Ok (write_stage w csv_file existing_ids rows (log ++ log'))
      end
  | Raise e => Ok (csv_file, log ++ [report e])
  | Unmodelled => Unmodelled
  end.
Proof.
  intros Hf Hp Hne. unfold run. rewrite Hf.
  destruct data as [|row data].
  { rewrite process_nil in Hp. by injection Hp as <- <-. }
  rewrite Hp. destruct processed as [|p processed]; [done|].
  done.
Qed.

(** A run without rows to store leaves the file as it is. *)
Lemma run_no_rows w csv_file :
  (∀ data, fetch w = FetchRows data → (process iso_format data).1 = []) →
  ∃ log, run iso_format w csv_file = Ok (csv_file, log).
Proof.
  intros H. unfold run. destruct (fetch w) as [e|data] eqn:Hf; [by eexists|].
  specialize (H data eq_refl). destruct data as [|row data]; [by eexists|].
  destruct (process iso_format (row :: data)) as [processed log].
  simpl in H. rewrite H. by eexists.
Qed.

Lemma new_rows_empty processed : new_rows processed ∅ = processed.
Proof.
  unfold new_rows. induction processed as [|r processed IH]; [done|].
  rewrite filter_cons_True by set_solver. by rewrite IH.
Qed.

Lemma last_index_None (k : string) (l : list string) :
  last_index k l = None ↔ k ∉ l.
Proof.
  induction l as [|x l IH]; simpl.
  - split; [intros _; apply not_elem_of_nil|done].
  - rewrite not_elem_of_cons. destruct (last_index k l).
    + split; [done|]. intros [_ H]. by apply IH in H.
    + case_bool_decide; split; try done; try tauto.
      * intros [? _]. congruence.
      * intros _. split; [congruence|]. by apply IH.
Qed.

Lemma storable_spec (r : processed_row) :
  storable r = true →
  forallb Csv.modelled (cells r) = true ∧ Csv.oversized (cells r) = false
  ∧ PyStr.contains Csv.CR (id r) = false.
Proof.
  unfold storable. intros [[H1 H2]%andb_prop H3]%andb_prop.
  apply negb_true_iff in H2, H3. done.
Qed.

(** The ids of a file that has grown by rows of the script, when the
    id is the first column. *)
Lemma read_ids_app header records rows ids :
  last_index "id" header = Some 0%nat →
  read_ids header records = Some ids →
  Forall (λ r, storable r = true) rows →
  read_ids header (records ++ (Csv.read_back <$> (cells <$> rows)))
  = Some (ids ++ (id <$> rows)).
Proof.
  unfold read_ids. intros ->. simpl. intros [= <-] Hrows.
  rewrite filter_app, fmap_app. do 2 f_equal.
  induction Hrows as [|r rows Hr Hrows IH]; [done|].
  rewrite !fmap_cons. rewrite filter_cons_True by done.
  rewrite fmap_cons, IH. f_equal. simpl.
  apply CsvFacts.un_no_cr. by apply storable_spec.
Qed.

(** What the script appends for storable rows is modelled text within
    the field size limit. *)
Lemma written_rows_modelled rows :
  Forall (λ r, storable r = true) rows →
  Csv.modelled (Csv.write_rows (cells <$> rows)) = true
  ∧ existsb Csv.oversized (Csv.read_back <$> (cells <$> rows)) = false.
Proof.
  intros Hrows. split.
  - apply CsvFacts.modelled_write_rows.
    induction Hrows as [|r rows Hr Hrows IH]; [done|].
    rewrite fmap_cons. cbn [forallb]. rewrite IH.
    apply storable_spec in Hr as (-> & _ & _). done.
  - induction Hrows as [|r rows Hr Hrows IH]; [done|].
    rewrite !fmap_cons. cbn [existsb]. rewrite IH.
    apply storable_spec in Hr as (_ & Hr & _).
    by rewrite (CsvFacts.oversized_un _ Hr).
Qed.

Lemma existsb_app_false {A} (p : A → bool) (l1 l2 : list A) :
  existsb p l1 = false → existsb p l2 = false → existsb p (l1 ++ l2) = false.
Proof. intros H1 H2. by rewrite existsb_app, H1, H2. Qed.

Lemma NoDup_fmap_filter {A B} (f : A → B) (P : A → Prop)
    `{!∀ x, Decision (P x)} (l : list A) :
  NoDup (f <$> l) → NoDup (f <$> filter P l).
Proof.
  intros Hnd. eapply sublist_NoDup; [exact Hnd|].
  apply fmap_sublist, sublist_filter.
Qed.

(** A record whose timestamp is not a string, or is a string that
    [fromisoformat] rejects, is stored with the sentinel date. *)
Lemma invalid_timestamp_sentinel (row : api_row) (i p t : jval) :
  snapshot_id row = Some i →
  snapshot_date row = Some t →
  pool_buckets row = Some p →
  date_str iso_format t = None →
  process_row iso_format row
  = (Some (ProcessedRow (jstr i) "Invalid timestamp" p t),
     [InvalidTimestampFormat (jstr i)]).
Proof.
  intros Hi Ht Hp Hd. unfold process_row. by rewrite Hi, Ht, Hp, Hd.
Qed.


(** When reading the existing file fails with a CSV or I/O error, or
    its first record has no id column, the run goes on: the condition
    is printed, no id counts as stored, and every processed record is
    appended. *)
Lemma caught_read_failure_appends_all w (text : string) data processed log :
  fetch w = FetchRows data →
  process iso_format data = (processed, log) →
  processed ≠ [] →
  write_fault w = None →
  read_fault w = Some CsvError ∨ read_fault w = Some IOError ∨
    (read_fault w = None ∧ Csv.modelled text = true
     ∧ Csv.oversized (default [] (head (Csv.records text))) = false
     ∧ "id" ∉ default [] (head (Csv.records text))) →
  let condition :=
    match read_fault w with
    | Some e => CsvReadError e
    | None => NoIdColumn
    end in
  run iso_format w (Some text)
  = Ok (Some (text +:+ Csv.write_rows (cells <$> processed)),
        log ++ [condition; Added (length processed) (length processed)]).
Proof.
  intros Hf Hp Hne Hw Hread condition.
  assert (read_existing (Some text) (read_fault w) = Ok (∅, [condition]))
    as Hex.
  { subst condition. unfold read_existing.
    destruct Hread as [->| [->| (-> & Hmod & Hover & Hid)]]; [done..|].
    rewrite Hmod. simpl.
    destruct (Csv.records text) as [|header records]; [done|]. simpl in *.
    rewrite Hover.
    apply last_index_None in Hid. unfold read_ids. by rewrite Hid. }
  rewrite (run_rows w _ data processed log) by done.
  rewrite Hex, new_rows_empty. destruct processed as [|r rows]; [done|].
  unfold write_stage. rewrite Hw, size_empty. simpl.
  by rewrite <- app_assoc.
Qed.

(** C6, as the code has it. For a store of modelled text that ends
    where a record ends, that the reader reads without error and whose
    first column is the id column, for a batch of storable rows and
    runs without read or write failure: a second run on the same
    response leaves the store as the first run left it, and when
    neither the store nor the batch repeats an id, no id is stored
    twice afterwards. *)
Theorem ingestion_idempotent w (old : string) header records :
  read_fault w = None →
  write_fault w = None →
  Csv.modelled old = true →
  Csv.complete old = true →
  Csv.records old = header :: records →
  existsb Csv.oversized (header :: records) = false →
  last_index "id" header = Some 0%nat →
  (∀ data, fetch w = FetchRows data →
           Forall (λ r, storable r = true) (process iso_format data).1) →
  ∃ new log,
    run iso_format w (Some old) = Ok (Some new, log) ∧
    (∃ log', run iso_format w (Some new) = Ok (Some new, log')) ∧
    ∀ data,
      fetch w = FetchRows data →
      NoDup (stored_ids old) →
      NoDup (id <$> (process iso_format data).1) →
      NoDup (stored_ids new).
Proof.
  intros Hread Hwrite Hmod Hcomp Hrecs Hover Hid Hstor.
  destruct (read_ids header records) as [ids|] eqn:Hids; last first.
  { unfold read_ids in Hids. by rewrite Hid in Hids. }
  cbn [existsb] in Hover. apply orb_false_elim in Hover as [Hhead Hover].
  destruct (fetch w) as [e|data] eqn:Hf.
  { exists old, [report e]. unfold run. rewrite Hf.
    split_and!; [done|by eexists|done]. }
  specialize (Hstor data eq_refl).
  destruct (process iso_format data) as [processed log] eqn:Hp.
  simpl in Hstor.
  destruct (decide (processed = [])) as [->|Hne].
  { assert (∀ csv_file, ∃ l, run iso_format w csv_file = Ok (csv_file, l))
      as Hrun.
    { intros csv_file. apply run_no_rows. intros data' Hf'.
      rewrite Hf in Hf'. injection Hf' as <-. by rewrite Hp. }
    destruct (Hrun (Some old)) as [l Hl]. exists old, l.
    split_and!; [done|by eexists|]. by intros ? _ ? _. }
  set (existing := list_to_set ids : gset string).
  assert (read_existing (Some old) (read_fault w) = Ok (existing, []))
    as Hex.
  { unfold read_existing. by rewrite Hread, Hmod, Hrecs, Hhead, Hids, Hover. }
  assert (run iso_format w (Some old)
          = match new_rows processed existing with
            | [] => Ok (Some old, log ++ [] ++ [NoNewEntries (size existing)])
            | rows => Ok (write_stage w (Some old) existing rows (log ++ []))
            end) as Hrun.
  { rewrite (run_rows w _ data processed log) by done. by rewrite Hex. }
  destruct (new_rows processed existing) as [|r rows'] eqn:Hrows.
  - (* nothing new: the first run writes nothing *)
    eexists old, _. split_and!; [done|by eexists|]. by intros ? _ ? _.
  - (* the new rows are appended; the second run finds them *)
    remember (r :: rows') as rows eqn:Hcons.
    assert (Forall (λ r, storable r = true) rows) as Hrs.
    { rewrite <- Hrows. apply Forall_forall.
      intros q [_ Hq]%list_elem_of_filter.
      by eapply Forall_forall in Hstor. }
    assert (new_rows processed (existing ∪ list_to_set (id <$> rows)) = [])
      as Hnone.
    { unfold new_rows. apply elem_of_nil_inv.
      intros q [Hnew Hq]%list_elem_of_filter. apply Hnew.
      destruct (decide (id q ∈ existing)) as [|Hfresh]; [set_solver|].
      apply elem_of_union_r, elem_of_list_to_set, list_elem_of_fmap.
      exists q. split; [done|]. rewrite <- Hrows.
      by apply list_elem_of_filter. }
    set (new := old +:+ Csv.write_rows (cells <$> rows)).
    destruct (CsvFacts.records_append old (cells <$> rows) Hcomp)
      as [Hrecs' _]. fold new in Hrecs'. rewrite Hrecs in Hrecs'.
    destruct (written_rows_modelled rows Hrs) as [Hmod' Hover'].
    assert (read_ids header (records ++ (Csv.read_back <$> (cells <$> rows)))
            = Some (ids ++ (id <$> rows))) as Hids'
      by (by apply read_ids_app).
    exists new. eexists. split_and!.
    + rewrite Hrun. unfold write_stage. rewrite Hwrite. done.
    + rewrite (run_rows w _ data processed log) by done.
      unfold read_existing. rewrite Hread.
      unfold new at 1. rewrite CsvFacts.modelled_app, Hmod, Hmod'. simpl.
      rewrite Hrecs'. simpl. rewrite Hhead, Hids'.
      rewrite existsb_app_false by done.
      rewrite list_to_set_app_L. fold existing. rewrite Hnone. by eexists.
    + intros data' Hf' Hstored Hbatch.
      injection Hf' as <-. rewrite Hp in Hbatch.
      unfold stored_ids in *. rewrite Hrecs, Hids in Hstored.
      rewrite Hrecs'. simpl. rewrite Hids'.
      simpl in *. apply NoDup_app. split_and!; [done| |].
      * intros i Hi (q & -> & Hq)%list_elem_of_fmap.
        rewrite <- Hrows in Hq. apply list_elem_of_filter in Hq as [Hq _].
        apply Hq. by apply elem_of_list_to_set.
      * rewrite <- Hrows. by apply NoDup_fmap_filter.
Qed.


End run_facts.

End IngestFacts.

Module IngestExamples.
Import Ingest IngestFacts.

Lemma ingestion_idempotent_witness :
  let w := Env (FetchRows [snapshot "7"; snapshot "8"]) None None in
  let old := stored_header +:+ stored "7" in
  ∃ new log,
    run iso_shape w (Some old) = Ok (Some new, log) ∧
    (∃ log', run iso_shape w (Some new) = Ok (Some new, log')) ∧
    ∀ data,
      fetch w = FetchRows data →
      NoDup (stored_ids old) →
      NoDup (id <$> (process iso_shape data).1) →
      NoDup (stored_ids new).
Proof.
  refine (ingestion_idempotent iso_shape
    (Env (FetchRows [snapshot "7"; snapshot "8"]) None None)
    (stored_header +:+ stored "7") fieldnames
    [["7"; "2024-01-05 10:00:00"; "[]"; "2024-01-05T10:00:00"]]
    _ _ _ _ _ _ _ _); try (vm_compute; reflexivity).
  intros data [= <-]. vm_compute. repeat constructor.
Defined.


(** C6 as stated fails. When the batch repeats an id, both records are
    appended to a store that has the id column and no rows. When the
    store does not end with a line break, the first record of a run is
    written onto its last line, is not found by the next run, and is
    appended again. *)
Lemma ingestion_idempotent_counterexample :
  let twice := Env (FetchRows [snapshot "7"; snapshot "7"]) None None in
  let w := Env (FetchRows [snapshot "8"]) None None in
  let open_line :=
    stored_header +:+ "7,2024-01-05 10:00:00,[],2024-01-05T10:00:00" in
  run iso_shape twice (Some stored_header)
    = Ok (Some (stored_header +:+ stored "7" +:+ stored "7"), [Added 2 2]) ∧
  stored_ids (stored_header +:+ stored "7" +:+ stored "7") = ["7"; "7"] ∧
  ¬ NoDup ["7"; "7"] ∧
  run iso_shape w (Some open_line)
    = Ok (Some (open_line +:+ stored "8"), [Added 1 2]) ∧
  run iso_shape w (Some (open_line +:+ stored "8"))
    = Ok (Some (open_line +:+ stored "8" +:+ stored "8"), [Added 1 2]) ∧
  open_line +:+ stored "8" +:+ stored "8" ≠ open_line +:+ stored "8".
Proof.
  split_and!; try (vm_compute; reflexivity).
  - intros [Hin _]%NoDup_cons. apply Hin. left.
  - vm_compute. discriminate.
Qed.

(** C6 also fails for an id that holds a carriage return: it is written
    as it is, inside quotes, and read back with a line feed in its
    place, so that a second run appends the record again. *)
Lemma carriage_return_id_not_idempotent :
  let i := "7" +:+ String Csv.CR "" in
  let w := Env (FetchRows [snapshot i]) None None in
  let quoted_row :=
    Csv.quoted i +:+ ",2024-01-05 10:00:00,[],2024-01-05T10:00:00"
    +:+ Csv.line_terminator in
  run iso_shape w (Some stored_header)
    = Ok (Some (stored_header +:+ quoted_row), [Added 1 1]) ∧
  stored_ids (stored_header +:+ quoted_row) = ["7" +:+ String Csv.LF ""] ∧
  run iso_shape w (Some (stored_header +:+ quoted_row))
    = Ok (Some (stored_header +:+ quoted_row +:+ quoted_row), [Added 1 2]).
Proof. split_and!; vm_compute; reflexivity. Qed.

(** C6 also fails for a store whose id column is not the first: the ids
    of the appended rows are then read from another column, and a second
    run appends the record again. *)
Lemma foreign_layout_not_idempotent :
  let w := Env (FetchRows [snapshot "8"]) None None in
  let file :=
    "date,id" +:+ Csv.line_terminator
    +:+ "2024-01-04 10:00:00,7" +:+ Csv.line_terminator in
  run iso_shape w (Some file)
    = Ok (Some (file +:+ stored "8"), [Added 1 2]) ∧
  run iso_shape w (Some (file +:+ stored "8"))
    = Ok (Some (file +:+ stored "8" +:+ stored "8"), [Added 1 3]).
Proof. split; vm_compute; reflexivity. Qed.


(** C7. A store whose bytes are no text in the encoding of the locale
    makes the read raise [UnicodeDecodeError], a [ValueError], which the
    handler of the read does not name: the handler at the end of the
    script reports it and nothing is appended. The handler names the CSV
    and the I/O errors: a store that cannot be opened does not stop the
    run, the condition is printed and the record is appended. *)
Theorem undecodable_store_aborts_run :
  let batch := FetchRows [snapshot "8"] in
  let file := stored_header +:+ stored "7" in
  run iso_shape (Env batch (Some ValueError) None) (Some undecodable_store)
  = Ok (Some undecodable_store, [UnexpectedError ValueError]) ∧
  run iso_shape (Env batch (Some IOError) None) (Some file)
  = Ok (Some (file +:+ stored "8"), [CsvReadError IOError; Added 1 1]).
Proof. split; vm_compute; reflexivity. Qed.

End IngestExamples.

(** ** Further properties of ingestion *)

Module IngestMore.
Import Ingest IngestFacts.


Section more_run_facts.

Variable iso_format : string → option string.

(** X2. The first run, on a store that does not exist, writes the header
    and every processed record; for storable records the next read of
    the store finds their ids, in the order of the response. *)
Theorem first_run_creates_store (w : env) data processed log :
  fetch w = FetchRows data →
  process iso_format data = (processed, log) →
  processed ≠ [] →
  write_fault w = None →
  Forall (λ r, storable r = true) processed →
  let new := Csv.write_rows (fieldnames :: (cells <$> processed)) in
  run iso_format w None
  = Ok (Some new, log ++ [Added (length processed) (length processed)]) ∧
  stored_ids new = id <$> processed.
Proof.
  intros Hf Hp Hne Hw Hst new. split.
  - rewrite (run_rows iso_format w _ data processed log) by done.
    simpl. rewrite new_rows_empty. destruct processed as [|r rows]; [done|].
    unfold write_stage. rewrite Hw, size_empty. simpl.
    by rewrite app_nil_r.
  - unfold stored_ids, new, Csv.records.
    rewrite CsvFacts.scan_write_rows, fmap_cons. cbv beta iota zeta.
    change (Csv.finish Csv.start) with (@nil (list string)).
    rewrite app_nil_r. cbv beta iota.
    change (Csv.read_back fieldnames) with fieldnames.
    rewrite <- (app_nil_l (Csv.read_back <$> (cells <$> processed))).
    by rewrite (read_ids_app fieldnames [] processed []).
Qed.


(** X4. No row of the response disappears: each one is processed, or
    reported as skipped. *)
Theorem every_row_kept_or_skipped (data : list api_row) :
  length (process iso_format data).1
  + length (List.filter skipped (process iso_format data).2)
  = length data.
Proof.
  assert (∀ row,
            length (option_list (process_row iso_format row).1)
            + length (List.filter skipped (process_row iso_format row).2) = 1)
    as Hrow.
  { intros row. unfold process_row.
    destruct (snapshot_id row), (snapshot_date row) as [t|],
      (pool_buckets row); try done.
    by destruct (date_str iso_format t). }
  unfold process. cbn [fst snd].
  induction data as [|row data IH]; [done|].
  rewrite fmap_cons, omap_cons. cbn [concat].
  rewrite List.filter_app, length_app.
  specialize (Hrow row).
  destruct (process_row iso_format row).1; simpl in *; lia.
Qed.

End more_run_facts.

Lemma first_run_creates_store_witness :
  let new := Csv.write_rows (fieldnames :: (cells <$> [processed_snapshot "7"])) in
  run iso_shape (Env (FetchRows [snapshot "7"]) None None) None
  = Ok (Some new, [] ++ [Added 1 1]) ∧
  stored_ids new = id <$> [processed_snapshot "7"].
Proof.
  refine (first_run_creates_store iso_shape
    (Env (FetchRows [snapshot "7"]) None None)
    [snapshot "7"] [processed_snapshot "7"] [] _ _ _ _ _).
  - reflexivity.
  - reflexivity.
  - discriminate.
  - reflexivity.
  - repeat constructor.
Defined.


End IngestMore.

(** ** The record parser *)

Section parser_facts.

Implicit Types (pool_data : gmap string float)
  (bindings : list (pyval * pyval)) (s : string).

(** An item that is not a dict, or lacks one of the two fields, is skipped:
    the fields parsed so far are kept. *)
Lemma parse_item_skipped pool_data item :
  (∀ bindings, item = PDict bindings →
     dict_get "key" bindings = None ∨ dict_get "value" bindings = None) →
  parse_item pool_data item = Ok pool_data.
Proof.
  intros H. destruct item as [| | | | |  |bindings]; try done.
  unfold parse_item. destruct (H bindings eq_refl) as [-> | ->]; [done|].
  by destruct (dict_get "key" bindings).
Qed.

(** A value that does not convert is skipped: the fields parsed so far are
    kept. *)
Lemma parse_item_conversion_failure pool_data bindings (k : pyval) s :
  dict_get "key" bindings = Some k →
  dict_get "value" bindings = Some (PStr s) →
  PyFloat.float_of_string (PyStr.strip (PyStr.remove " TLM" s))
    = Raise ValueError →
  parse_item pool_data (PDict bindings) = Ok pool_data.
Proof.
  intros Hk Hv Hx. unfold parse_item. rewrite Hk, Hv. simpl. by rewrite Hx.
Qed.

(** A literal that does not decode yields the empty dict when the
    exception is one the handler names, and leaves the parser otherwise. *)
Lemma parse_pool_data_decode_failure s (e : exn) :
  PyStr.all_ascii s = true →
  PyStr.strip s ≠ EmptyString →
  Literal.literal_eval
    (PyStr.strip_char PyStr.squote (PyStr.strip_char PyStr.dquote s))
    = Raise e →
  parse_pool_data (CStr s)
  = if caught_by_parser e then Ok ∅ else Raise e.
Proof.
  intros Hascii Hne He. unfold parse_pool_data.
  rewrite Hascii, bool_decide_eq_false_2 by done. simpl. by rewrite He.
Qed.

(** A literal that is not iterable leaves the parser with [TypeError]. *)
Lemma parse_pool_data_not_iterable s (v : pyval) :
  PyStr.all_ascii s = true →
  PyStr.strip s ≠ EmptyString →
  Literal.literal_eval
    (PyStr.strip_char PyStr.squote (PyStr.strip_char PyStr.dquote s))
    = Ok v →
  py_iter v = Raise TypeError →
  parse_pool_data (CStr s) = Raise TypeError.
Proof.
  intros Hascii Hne Hv Hiter. unfold parse_pool_data.
  rewrite Hascii, bool_decide_eq_false_2 by done. simpl.
  by rewrite Hv, Hiter.
Qed.

End parser_facts.

(** The two examples of the specification, and a record one field of which
    does not convert: the other fields are kept. *)
Lemma parse_pool_data_examples :
  parse_pool_data (CStr rare_json) = Ok {[ "Rare" := 0.5%float ]} ∧
  parse_pool_data (CStr "{not valid}") = Ok ∅ ∧
  parse_pool_data
    (CStr "[{'key': 'Epic', 'value': 'n/a TLM'}, {'key': 'Rare', 'value': '0.5 TLM'}, {'key': 'Common'}]")
    = Ok {[ "Rare" := 0.5%float ]} ∧
  parse_pool_data CNotStr = Ok ∅.
Proof. split_and!; vm_compute; reflexivity. Qed.

(** C3. A pool field that is a literal but not a sequence makes the parser
    raise [TypeError], which its handler does not name; in
    [process_csv_data] the exception ends the batch and no table is
    written, although the other row is well formed. *)
Theorem parse_pool_data_raises_TypeError :
  parse_pool_data (CStr "5") = Raise TypeError ∧
  parse_pool_data (CStr "[{'key': ['Rare'], 'value': '0.5 TLM'}]")
    = Raise TypeError ∧
  process_csv_data PyFloat.sum_left
    [rare_row "2024-01-01 10:00:00" "0.5"; RawRow "2024-01-01 11:00:00" (CStr "5")]
    = Ok None.
Proof. split_and!; vm_compute; reflexivity. Qed.

(** ** Numeric semantics *)

(** C4 as stated fails: the amount 0.00015 is held as the nearest binary
    float, which lies below it, and is emitted as 0.0001; under fixed
    decimal semantics it is emitted as 0.0002, whether ties go to the even
    neighbour or away from zero. *)
Lemma fixed_decimal_counterexample :
  process_csv_data PyFloat.sum_left [rare_row "2024-01-01 10:00:00" "0.00015"]
    = Ok (Some [SummaryRow 1 "2024-01-01" [AvgEntry "Rare" "0.0001 TLM"] 1]) ∧
  DecimalSpec.emitted false ["0.00015"] = Some "0.0002 TLM" ∧
  DecimalSpec.emitted true ["0.00015"] = Some "0.0002 TLM".
Proof. split_and!; vm_compute; reflexivity. Qed.

(** C4, as the code has it. Amounts are binary floats. The parser stores
    the float that [float] returns for the text of the value, without
    rounding it to four decimals; every emitted value is the formatting to
    four decimals, done once, of the float quotient of the sum of the
    stored amounts by their number. *)
Theorem rounding_only_at_emission (py_sum : list float → float) :
  (∀ (pool_data : gmap string float) (bindings : list (pyval * pyval))
     (k s : string) (x : float),
     dict_get "key" bindings = Some (PStr k) →
     dict_get "value" bindings = Some (PStr s) →
     PyFloat.float_of_string (PyStr.strip (PyStr.remove " TLM" s)) = Ok x →
     parse_item pool_data (PDict bindings) = Ok (<[k := x]> pool_data)) ∧
  (∀ (pools : list (gmap string float)) (e : avg_entry),
     e ∈ calculate_daily_averages py_sum pools →
     let values := values_of (key e) pools in
     value e
     = PyFloat.format_4f
         (PrimFloat.div (py_sum values)
            (PyFloat.of_Z (Z.of_nat (length values)))) +:+ " TLM").
Proof.
  split.
  - intros pool_data bindings k s x Hk Hv Hx. unfold parse_item.
    rewrite Hk, Hv. simpl. by rewrite Hx.
  - intros pools e [Hex He]%elem_of_calculate_daily_averages values.
    rewrite (avg_entry_of_Some _ _ _ Hex) in He. by injection He as <-.
Qed.

Lemma rounding_only_at_emission_witness :
  parse_item ∅ (PDict [(PStr "key", PStr "Rare"); (PStr "value", PStr "0.00006 TLM")])
    = Ok (<["Rare" := 0.00006%float]> ∅) ∧
  let e := AvgEntry "Rare" "0.0000 TLM" in
  let values := values_of (key e) small_amounts in
  value e
  = PyFloat.format_4f
      (PrimFloat.div (PyFloat.sum_left values)
         (PyFloat.of_Z (Z.of_nat (length values)))) +:+ " TLM".
Proof.
  split.
  - apply (proj1 (rounding_only_at_emission PyFloat.sum_left) ∅
             [(PStr "key", PStr "Rare"); (PStr "value", PStr "0.00006 TLM")]
             "Rare" "0.00006 TLM");
      vm_compute; reflexivity.
  - apply (proj2 (rounding_only_at_emission PyFloat.sum_left) small_amounts
             (AvgEntry "Rare" "0.0000 TLM")).
    vm_compute. apply list_elem_of_here.
Defined.

(** ** Further properties of the aggregator *)

Section table_facts.

Variable py_sum : list float → float.
Implicit Types (df : list raw_row) (rows parsed : list parsed_row)
  (d : string).

Lemma sum_list_fmap_add {A} (f g : A → nat) (l : list A) :
  sum_list ((λ x, f x + g x) <$> l) = sum_list (f <$> l) + sum_list (g <$> l).
Proof. induction l as [|x l IH]; [done|]. rewrite !fmap_cons. simpl. lia. Qed.

Lemma sum_list_indicator (x : string) (l : list string) :
  NoDup l →
  sum_list ((λ d, if decide (x = d) then 1 else 0) <$> l)
  = if decide (x ∈ l) then 1 else 0.
Proof.
  induction 1 as [|d l Hd Hl IH]; [done|]. rewrite fmap_cons. simpl.
  rewrite IH. destruct (decide (x = d)) as [->|Hne].
  - rewrite decide_False by done. rewrite decide_True by left. done.
  - destruct (decide (x ∈ l)).
    + rewrite decide_True by (by right). done.
    + rewrite decide_False by (by intros [?|?]%elem_of_cons). done.
Qed.

(** The groups of the days partition the rows. *)
Lemma group_sizes rows (days : list string) :
  NoDup days →
  (∀ r, r ∈ rows → day r ∈ days) →
  sum_list ((λ d, length (group rows d)) <$> days) = length rows.
Proof.
  intros Hnd. induction rows as [|r rows IH]; intros Hin.
  - clear. induction days as [|d days IH]; [done|]. by rewrite fmap_cons.
  - rewrite (list_fmap_ext _
      (λ d, (if decide (day r = d) then 1 else 0) + length (group rows d)) days).
    + rewrite sum_list_fmap_add, sum_list_indicator by done.
      rewrite decide_True by (apply Hin; left).
      rewrite IH; [done|]. intros r' Hr'. apply Hin. by right.
    + intros _ d _. unfold group. rewrite filter_cons.
      by destruct (decide (day r = d)).
Qed.

Lemma length_valid_rows df parsed :
  mapM parse_row df = Ok parsed →
  length (valid_rows parsed) = length (filter (λ r, counted r = true) df).
Proof.
  revert parsed. induction df as [|r df IH]; intros parsed.
  - by intros [= <-].
  - intros (p & ps & Hp & Hps & ->)%mapM_Ok_cons.
    apply bind_Ok in Hp as (m & Hm & [= <-]).
    specialize (IH ps Hps). unfold valid_rows in *.
    assert (counted r = bool_decide (0 < size m)) as Hc
      by (unfold counted; by rewrite Hm).
    destruct (decide (0 < size m)) as [Hm'|Hm'].
    + rewrite filter_cons_True by done.
      rewrite filter_cons_True by (by rewrite Hc, bool_decide_eq_true_2).
      simpl. by rewrite IH.
    + rewrite filter_cons_False by done.
      rewrite filter_cons_False
        by (rewrite Hc, bool_decide_eq_false_2 by done; discriminate).
      done.
Qed.

(** X5. Every counted row of the raw store is counted for exactly one day:
    the entry counts of the output add up to the number of rows whose
    parsed dict is not empty. *)
Theorem entries_sum_to_counted_rows df (out : list summary_row) :
  process_csv_data py_sum df = Ok (Some out) →
  sum_list (numberofentries <$> out)
  = length (filter (λ r, counted r = true) df).
Proof.
  intros (parsed & Hparsed & ->)%process_csv_data_Some.
  rewrite <- (length_valid_rows _ _ Hparsed).
  unfold daily_summary. rewrite fmap_imap.
  rewrite (imap_ext _ (λ _ d, length (group (valid_rows parsed) d))) by done.
  rewrite (imap_const (λ d, length (group (valid_rows parsed) d))).
  apply group_sizes; [apply group_days_NoDup|].
  intros r Hr. apply elem_of_group_days. by exists r.
Qed.

Lemma mapM_cons_eq {A B} (f : A → result B) (x : A) (l : list A) :
  mapM f (x :: l) = f x ≫= λ y, mapM f l ≫= λ k, Ok (y :: k).
Proof. done. Qed.

(** X6. One row whose pool field makes the parser raise ends the batch: no
    table is written, whatever the other rows hold. *)
Theorem raising_row_aborts_batch df (r : raw_row) (e : exn) :
  r ∈ df →
  parse_pool_data (pool r) = Raise e →
  (∀ r', r' ∈ df → parse_pool_data (pool r') ≠ Unmodelled) →
  process_csv_data py_sum df = Ok None.
Proof.
  intros Hr He Hmod.
  assert (∃ e', mapM parse_row df = Raise e') as [e' He'].
  { induction df as [|r' df IH]; [by apply elem_of_nil in Hr|].
    rewrite mapM_cons_eq.
    destruct (parse_row r') as [y|e1|] eqn:Hrow; unfold parse_row in Hrow;
      destruct (parse_pool_data (pool r')) as [m|e2|] eqn:Hr';
      simpl in Hrow; simplify_eq.
    - apply elem_of_cons in Hr as [->|Hr]; [congruence|].
      destruct IH as [e' He']; [done| |].
      + intros r'' Hr''. apply Hmod. by right.
      + exists e'. simpl. by rewrite He'.
    - by eexists.
    - destruct (Hmod r'); [left|done]. }
  unfold process_csv_data, summarize. destruct df as [|r0 df].
  { by apply elem_of_nil in Hr. }
  by rewrite He'.
Qed.

Lemma mapM_Permutation {A B} (f : A → result B) (l l' : list A) (m : list B) :
  l ≡ₚ l' → mapM f l = Ok m → ∃ m', mapM f l' = Ok m' ∧ m ≡ₚ m'.
Proof.
  intros Hperm. revert m.
  induction Hperm as [|x l l' _ IH|x y l|l1 l2 l3 _ IH1 _ IH2]; intros m.
  - intros [= <-]. by exists [].
  - intros (y & ys & Hy & Hys & ->)%mapM_Ok_cons.
    destruct (IH ys Hys) as (ys' & Hys' & Hp).
    exists (y :: ys'). split; [|by constructor].
    apply mapM_Ok_cons. by exists y, ys'.
  - intros (b & ys & Hb & (a & zs & Ha & Hzs & ->)%mapM_Ok_cons & ->)%mapM_Ok_cons.
    exists (a :: b :: zs). split; [|by constructor].
    apply mapM_Ok_cons. exists a, (b :: zs). split_and!; [done| |done].
    apply mapM_Ok_cons. by exists b, zs.
  - intros Hm. destruct (IH1 m Hm) as (m2 & Hm2 & Hp2).
    destruct (IH2 m2 Hm2) as (m3 & Hm3 & Hp3).
    exists m3. split; [done|]. by etrans.
Qed.

Lemma group_days_Permutation rows rows' :
  rows ≡ₚ rows' → group_days rows = group_days rows'.
Proof.
  intros Hperm. unfold group_days, sorted.
  apply (StronglySorted_unique String.le).
  - apply StronglySorted_merge_sort; apply _.
  - apply StronglySorted_merge_sort; apply _.
  - rewrite !merge_sort_Permutation.
    apply NoDup_Permutation; [apply NoDup_remove_dups..|].
    intros d. rewrite !elem_of_remove_dups. by rewrite Hperm.
Qed.

Lemma all_keys_Permutation (pools pools' : list (gmap string float)) :
  pools ≡ₚ pools' → all_keys pools = all_keys pools'.
Proof.
  intros Hperm. apply set_eq. intros k. rewrite !elem_of_all_keys.
  by setoid_rewrite Hperm.
Qed.

(** X7. The days, the ids, the keys and the entry counts of the output do
    not depend on the order of the rows of the raw store. *)
Theorem table_shape_order_independent df df' (out : list summary_row) :
  df ≡ₚ df' →
  process_csv_data py_sum df = Ok (Some out) →
  ∃ out', process_csv_data py_sum df' = Ok (Some out') ∧
          row_shape <$> out = row_shape <$> out'.
Proof.
  intros Hperm Hout.
  destruct (process_csv_data_Some _ _ _ Hout) as (parsed & Hparsed & ->).
  destruct (mapM_Permutation _ _ _ _ Hperm Hparsed) as (parsed' & Hparsed' & Hp).
  exists (daily_summary py_sum (valid_rows parsed')). split.
  - unfold process_csv_data, summarize. destruct df' as [|r' df'].
    + apply Permutation_nil_r in Hperm. by subst df.
    + by rewrite Hparsed'.
  - assert (valid_rows parsed ≡ₚ valid_rows parsed') as Hv
      by (unfold valid_rows; by rewrite Hp).
    unfold daily_summary. rewrite !fmap_imap.
    rewrite (group_days_Permutation _ _ Hv).
    apply imap_ext. intros i d _. unfold row_shape. simpl.
    assert (group (valid_rows parsed) d ≡ₚ group (valid_rows parsed') d) as Hg
      by (unfold group; by rewrite Hv).
    rewrite !calculate_daily_averages_keys.
    rewrite (all_keys_Permutation _ (parsed_pool <$> group (valid_rows parsed') d))
      by (by rewrite Hg).
    by rewrite Hg.
Qed.

End table_facts.

Lemma entries_sum_to_counted_rows_witness :
  sum_list (numberofentries
              <$> [SummaryRow 1 "2024-01-01" [AvgEntry "Rare" "0.1000 TLM"] 1;
                   SummaryRow 2 "2024-01-02"
                     [AvgEntry "Epic" "1.0000 TLM"; AvgEntry "Rare" "0.9000 TLM"] 1])
  = length (filter (λ r, counted r = true) two_days).
Proof.
  refine (entries_sum_to_counted_rows PyFloat.sum_left two_days _ _).
  vm_compute. reflexivity.
Defined.

Lemma raising_row_aborts_batch_witness :
  process_csv_data PyFloat.sum_left
    [rare_row "2024-01-01 10:00:00" "0.5"; RawRow "2024-01-01 11:00:00" (CStr "5")]
  = Ok None.
Proof.
  refine (raising_row_aborts_batch PyFloat.sum_left _
    (RawRow "2024-01-01 11:00:00" (CStr "5")) TypeError _ _ _).
  - right. left.
  - vm_compute. reflexivity.
  - intros r' [->|[->|[]%elem_of_nil]%elem_of_cons]%elem_of_cons;
      vm_compute; discriminate.
Defined.

Lemma table_shape_order_independent_witness :
  ∃ out',
    process_csv_data PyFloat.sum_left (reverse two_days) = Ok (Some out') ∧
    row_shape
      <$> [SummaryRow 1 "2024-01-01" [AvgEntry "Rare" "0.1000 TLM"] 1;
           SummaryRow 2 "2024-01-02"
             [AvgEntry "Epic" "1.0000 TLM"; AvgEntry "Rare" "0.9000 TLM"] 1]
    = row_shape <$> out'.
Proof.
  refine (table_shape_order_independent PyFloat.sum_left two_days
    (reverse two_days) _ _ _).
  - symmetry. apply reverse_Permutation.
  - vm_compute. reflexivity.
Defined.

(** ** Reading back a stored pool field *)

Module PoolTextFacts.
Import Literal PoolText.

Section lexer.

Implicit Types (s b rest acc : string).

Lemma plain_char_body c :
  plain_char c = true →
  PyStr.ascii_eqb c PyStr.squote = false ∧
  PyStr.ascii_eqb c "\"%char = false ∧
  PyStr.ascii_eqb c "010"%char = false ∧
  PyStr.ascii_eqb c "013"%char = false ∧
  Csv.text_char c = true.
Proof.
  unfold plain_char, PyStr.ascii_eqb, Csv.text_char. intros H.
  set (n := nat_of_ascii c) in *.
  assert (32 ≤ n ∧ n ≤ 126 ∧ n ≠ 39 ∧ n ≠ 92) as (? & ? & ? & ?).
  { repeat (apply andb_prop in H as [H ?]).
    apply Nat.leb_le in H.
    repeat match goal with
    | H : (_ <=? _)%nat = true |- _ => apply Nat.leb_le in H
    | H : negb _ = true |- _ => apply negb_true_iff, Nat.eqb_neq in H
    end. done. }
  split_and!.
  - apply bool_decide_eq_false_2. intros ->. by subst n.
  - apply bool_decide_eq_false_2. intros ->. by subst n.
  - apply bool_decide_eq_false_2. intros ->. subst n. simpl in *. lia.
  - apply bool_decide_eq_false_2. intros ->. subst n. simpl in *. lia.
  - apply andb_true_intro. split; [apply Nat.ltb_lt|apply Nat.ltb_lt]; lia.
Qed.

(** The body of a string literal in single quotes is read up to the
    closing quote. *)
Lemma lex_string_body b acc rest :
  plain b = true →
  lex (LStr PyStr.squote acc) (b +:+ String PyStr.squote rest)
  = ts ← lex LIdle rest; Some (TStr (String.rev_app acc b) :: ts).
Proof.
  revert acc. induction b as [|c b IH]; intros acc Hb.
  - change (lex (LStr PyStr.squote acc) (String PyStr.squote rest))
      with (ts ← lex LIdle rest; Some ([TStr (String.rev acc)] ++ ts)).
    done.
  - simpl in Hb. apply andb_prop in Hb as [Hc Hb].
    destruct (plain_char_body c Hc) as (H1 & H2 & H3 & H4 & _).
    change (String c b +:+ String PyStr.squote rest)
      with (String c (b +:+ String PyStr.squote rest)).
    cbn [lex lex_step]. rewrite H1, H2, H3, H4. cbn [orb mbind option_bind].
    rewrite (IH (String c acc) Hb).
    destruct (lex LIdle rest); done.
Qed.

Lemma lex_repr_str s rest :
  plain s = true →
  lex LIdle (repr_str s rest) = ts ← lex LIdle rest; Some (TStr s :: ts).
Proof.
  intros Hs. unfold repr_str.
  change (lex LIdle (String PyStr.squote (s +:+ String PyStr.squote rest)))
    with (r ← lex (LStr PyStr.squote EmptyString)
                  (s +:+ String PyStr.squote rest); Some ([] ++ r)).
  rewrite (lex_string_body s EmptyString rest Hs).
  destruct (lex LIdle rest); done.
Qed.

(** A character that is a token of its own, or a blank. *)
Lemma lex_idle c ts rest :
  idle_step c = Some (ts, LIdle) →
  lex LIdle (String c rest) = r ← lex LIdle rest; Some (ts ++ r).
Proof. intros H. cbn [lex lex_step]. by rewrite H. Qed.

Lemma lex_repr_item e rest :
  plain e.1 = true → plain e.2 = true →
  lex LIdle (repr_item e rest)
  = ts ← lex LIdle rest; Some (item_tokens e ++ ts).
Proof.
  intros Hk Hv. unfold repr_item.
  rewrite (lex_idle "{" [TLBrace]) by done.
  rewrite (lex_repr_str "key") by done.
  rewrite (lex_idle ":" [TColon]) by done.
  rewrite (lex_idle " " []) by done.
  rewrite (lex_repr_str e.1) by done.
  rewrite (lex_idle "," [TComma]) by done.
  rewrite (lex_idle " " []) by done.
  rewrite (lex_repr_str "value") by done.
  rewrite (lex_idle ":" [TColon]) by done.
  rewrite (lex_idle " " []) by done.
  rewrite (lex_repr_str e.2) by done.
  rewrite (lex_idle "}" [TRBrace]) by done.
  destruct (lex LIdle rest); done.
Qed.

Lemma lex_repr_more es rest :
  Forall (λ e, plain e.1 = true ∧ plain e.2 = true) es →
  lex LIdle (repr_more es rest)
  = ts ← lex LIdle rest; Some (more_tokens es ++ ts).
Proof.
  induction 1 as [|e es [Hk Hv] _ IH].
  - simpl. by destruct (lex LIdle rest).
  - change (repr_more (e :: es) rest)
      with (String "," (String " " (repr_item e (repr_more es rest)))).
    change (more_tokens (e :: es))
      with ((TComma :: item_tokens e) ++ more_tokens es).
    rewrite (lex_idle "," [TComma]) by done.
    rewrite (lex_idle " " []) by done.
    rewrite lex_repr_item, IH by done.
    destruct (lex LIdle rest) as [ts|]; [|done].
    reflexivity.
Qed.

Lemma lex_pool_text entries :
  Forall (λ e, plain e.1 = true ∧ plain e.2 = true) entries →
  lex LIdle (pool_text entries) = Some (pool_tokens entries).
Proof.
  intros [|e es [Hk Hv] Hes]; [done|].
  unfold pool_text.
  rewrite (lex_idle "[" [TLBrack]) by done.
  rewrite lex_repr_item, lex_repr_more by done.
  done.
Qed.

End lexer.

Section text.

Implicit Types (e : string * string) (es entries : list (string * string)).

Lemma modelled_plain s : plain s = true → Csv.modelled s = true.
Proof.
  induction s as [|c s IH]; [done|]. simpl.
  intros [Hc Hs]%andb_prop.
  destruct (plain_char_body c Hc) as (_ & _ & _ & _ & ->). by apply IH.
Qed.

Lemma modelled_ascii s :
  Csv.modelled s = true →
  PyStr.all_ascii s = true ∧ PyStr.contains "000" s = false.
Proof.
  induction s as [|c s IH]; [done|]. simpl.
  intros [Hc Hs]%andb_prop. destruct (IH Hs) as [-> ->].
  unfold Csv.text_char in Hc. apply andb_prop in Hc as [H0 H128].
  apply Nat.ltb_lt in H0. unfold PyStr.is_ascii. rewrite H128.
  split; [done|]. rewrite orb_false_r. unfold PyStr.ascii_eqb.
  apply bool_decide_eq_false_2. intros ->. by apply Nat.lt_irrefl in H0.
Qed.

Lemma modelled_repr_str s rest :
  plain s = true →
  Csv.modelled (repr_str s rest) = Csv.modelled rest.
Proof.
  intros Hs. unfold repr_str. cbn [Csv.modelled].
  rewrite CsvFacts.modelled_app, (modelled_plain s Hs). done.
Qed.

Lemma modelled_repr_item e rest :
  plain e.1 = true → plain e.2 = true →
  Csv.modelled (repr_item e rest) = Csv.modelled rest.
Proof.
  intros Hk Hv. unfold repr_item. cbn [Csv.modelled].
  rewrite modelled_repr_str by done. cbn [Csv.modelled].
  rewrite modelled_repr_str by done. cbn [Csv.modelled].
  rewrite modelled_repr_str by done. cbn [Csv.modelled].
  rewrite modelled_repr_str by done. done.
Qed.

Lemma modelled_repr_more es rest :
  Forall (λ e, plain e.1 = true ∧ plain e.2 = true) es →
  Csv.modelled (repr_more es rest) = Csv.modelled rest.
Proof.
  induction 1 as [|e es [Hk Hv] _ IH]; [done|].
  cbn [repr_more Csv.modelled]. rewrite modelled_repr_item by done.
  by rewrite IH.
Qed.

Lemma modelled_pool_text entries :
  Forall (λ e, plain e.1 = true ∧ plain e.2 = true) entries →
  Csv.modelled (pool_text entries) = true.
Proof.
  intros [|e es [Hk Hv] Hes]; [done|].
  unfold pool_text. cbn [Csv.modelled].
  rewrite modelled_repr_item, modelled_repr_more by done. done.
Qed.

Lemma repr_str_app s a b : repr_str s (a +:+ b) = repr_str s a +:+ b.
Proof.
  unfold repr_str. rewrite CsvFacts.append_cons, CsvFacts.append_assoc.
  by rewrite CsvFacts.append_cons.
Qed.

Lemma repr_item_app e a b : repr_item e (a +:+ b) = repr_item e a +:+ b.
Proof.
  unfold repr_item.
  repeat first [rewrite CsvFacts.append_cons | rewrite <- repr_str_app].
  done.
Qed.

Lemma repr_more_app es a b : repr_more es (a +:+ b) = repr_more es a +:+ b.
Proof.
  induction es as [|e es IH]; [done|].
  cbn [repr_more]. rewrite IH, repr_item_app.
  by rewrite !CsvFacts.append_cons.
Qed.

(** The text is what stands between two brackets. *)
Lemma pool_text_brackets entries :
  pool_text entries = String "[" (inner entries +:+ "]").
Proof.
  destruct entries as [|e es]; [done|]. unfold pool_text, inner.
  f_equal. rewrite <- repr_item_app, <- repr_more_app. done.
Qed.

Lemma rstrip_snoc (p : ascii → bool) (s : string) (c : ascii) :
  p c = false →
  PyStr.rstrip p (s +:+ String c "") = s +:+ String c "".
Proof.
  intros Hc. induction s as [|a s IH].
  - simpl. by rewrite Hc.
  - rewrite CsvFacts.append_cons. cbn [PyStr.rstrip]. rewrite IH.
    by destruct s.
Qed.

Lemma strip_with_brackets (p : ascii → bool) (s : string) :
  p "["%char = false → p "]"%char = false →
  PyStr.strip_with p (String "[" (s +:+ "]")) = String "[" (s +:+ "]").
Proof.
  intros Hl Hr. unfold PyStr.strip_with. cbn [PyStr.lstrip]. rewrite Hl.
  rewrite <- CsvFacts.append_cons. by apply rstrip_snoc.
Qed.

End text.

Section parser.

Implicit Types (e : string * string) (es : list (string * string))
  (r : list token).

Lemma parse_item_tokens e r fuel :
  3 ≤ fuel →
  parse_expr fuel (item_tokens e ++ r) = Some (item_ast e, r).
Proof.
  intros H. destruct fuel as [|[|[|fuel]]]; [lia..|]. reflexivity.
Qed.

Lemma parse_more_tokens es r fuel :
  3 + length es ≤ fuel →
  parse_more fuel true (more_tokens es ++ TRBrack :: r)
  = Some (item_ast <$> es, r).
Proof.
  revert fuel. induction es as [|e es IH]; intros fuel H.
  - destruct fuel; [lia|]. reflexivity.
  - destruct fuel as [|fuel]; [simpl in H; lia|].
    change (more_tokens (e :: es) ++ TRBrack :: r)
      with (TComma :: TLBrace :: (tail (item_tokens e)
              ++ more_tokens es ++ TRBrack :: r)).
    cbn [parse_more].
    change (TLBrace :: (tail (item_tokens e) ++ more_tokens es ++ TRBrack :: r))
      with (item_tokens e ++ more_tokens es ++ TRBrack :: r).
    rewrite parse_item_tokens by (simpl in H; lia).
    cbn [mbind option_bind]. rewrite IH by (simpl in H; lia).
    reflexivity.
Qed.

Lemma length_more_tokens es : length (more_tokens es) = 10 * length es.
Proof.
  induction es as [|e es IH]; [done|].
  change (more_tokens (e :: es))
    with ((TComma :: item_tokens e) ++ more_tokens es).
  rewrite length_app, IH. simpl. lia.
Qed.

Lemma parse_pool_tokens entries :
  parse (pool_tokens entries) = Some (AList (item_ast <$> entries)).
Proof.
  destruct entries as [|e es]; [done|].
  unfold parse, pool_tokens.
  assert (∀ fuel, 3 + length es ≤ fuel →
    parse_expr (S fuel) (TLBrack :: item_tokens e ++ more_tokens es ++ [TRBrack])
    = Some (AList (item_ast <$> e :: es), [])) as Hparse.
  { intros fuel Hfuel.
    change (TLBrack :: item_tokens e ++ more_tokens es ++ [TRBrack])
      with (TLBrack :: TLBrace :: (tail (item_tokens e)
              ++ more_tokens es ++ [TRBrack])).
    cbn [parse_expr].
    change (TLBrace :: (tail (item_tokens e) ++ more_tokens es ++ [TRBrack]))
      with (item_tokens e ++ more_tokens es ++ [TRBrack]).
    rewrite parse_item_tokens by lia. cbn [mbind option_bind].
    rewrite parse_more_tokens by lia. reflexivity. }
  rewrite Hparse; [done|].
  rewrite length_cons, !length_app, length_more_tokens.
  change (length (item_tokens e)) with 9. lia.
Qed.

Lemma convert_items es :
  convert (AList (item_ast <$> es)) = Ok (PList (item_val <$> es)).
Proof.
  assert ((fix go (l : list ast) : result (list pyval) :=
             match l with
             | [] => Ok []
             | x :: l' => v ← convert x; vs ← go l'; Ok (v :: vs)
             end) (item_ast <$> es) = Ok (item_val <$> es)) as H.
  { induction es as [|e es IH]; [done|].
    rewrite !fmap_cons. rewrite IH. reflexivity. }
  cbn [convert]. rewrite H. reflexivity.
Qed.

Lemma tokenize_lex (c : ascii) (s : string) :
  PyStr.contains "000" (String c s) = false →
  PyStr.ascii_eqb c " " || PyStr.ascii_eqb c "009" = false →
  tokenize (String c s) = lex LIdle (String c s).
Proof. intros H1 H2. unfold tokenize. by rewrite H1, H2. Qed.

(** The text of a stored pool field denotes the list of its objects. *)
Lemma literal_eval_pool_text entries :
  Forall (λ e, plain e.1 = true ∧ plain e.2 = true) entries →
  literal_eval (pool_text entries) = Ok (PList (item_val <$> entries)).
Proof.
  intros H. unfold literal_eval.
  destruct (modelled_ascii _ (modelled_pool_text _ H)) as [_ Hnul].
  assert (tokenize (pool_text entries) = lex LIdle (pool_text entries)) as ->.
  { revert Hnul. rewrite pool_text_brackets. intros Hnul.
    by apply tokenize_lex. }
  by rewrite lex_pool_text, parse_pool_tokens, convert_items.
Qed.

End parser.

(** The parser on the objects of a stored pool field: each value that
    converts is stored under its key, a later one replacing an earlier
    one of the same key. *)
Lemma foldM_parse_items (entries : list (string * string)) (xs : list float)
    (m : gmap string float) :
  Forall2 (λ e x,
             PyFloat.float_of_string (PyStr.strip (PyStr.remove " TLM" e.2))
             = Ok x) entries xs →
  foldM parse_item m (item_val <$> entries)
  = Ok (fold_left (λ m kx, <[kx.1 := kx.2]> m) (zip entries.*1 xs) m).
Proof.
  intros H. revert m. induction H as [|e x entries xs He _ IH]; intros m.
  - done.
  - rewrite !fmap_cons. cbn [foldM zip zip_with fold_left].
    assert (parse_item m (item_val e) = Ok (<[e.1 := x]> m)) as ->.
    { unfold parse_item, item_val. cbn [dict_get]. simpl.
      by rewrite He. }
    simpl. apply IH.
Qed.

(** X8. What ingestion stores for a pool list of [{'key': k, 'value': v}]
    objects of plain strings is parsed back by the aggregator into the
    dict that maps each key to the number of its value. *)
Theorem stored_pool_parsed_back (entries : list (string * string))
    (xs : list float) :
  Forall (λ e, plain e.1 = true ∧ plain e.2 = true) entries →
  Forall2 (λ e x,
             PyFloat.float_of_string (PyStr.strip (PyStr.remove " TLM" e.2))
             = Ok x) entries xs →
  parse_pool_data (CStr (pool_text entries))
  = Ok (fold_left (λ m kx, <[kx.1 := kx.2]> m) (zip entries.*1 xs) ∅).
Proof.
  intros Hplain Hxs. unfold parse_pool_data.
  destruct (modelled_ascii _ (modelled_pool_text _ Hplain)) as [-> _].
  cbn [negb]. cbv iota.
  assert (PyStr.strip (pool_text entries) = pool_text entries) as Hstrip.
  { rewrite pool_text_brackets. by apply strip_with_brackets. }
  rewrite Hstrip.
  rewrite bool_decide_eq_false_2 by (by rewrite pool_text_brackets).
  cbv zeta.
  assert (PyStr.strip_char PyStr.squote
            (PyStr.strip_char PyStr.dquote (pool_text entries))
          = pool_text entries) as ->.
  { rewrite pool_text_brackets. unfold PyStr.strip_char.
    rewrite strip_with_brackets by done. by apply strip_with_brackets. }
  rewrite literal_eval_pool_text by done.
  cbn [py_iter mbind result_bind]. by apply foldM_parse_items.
Qed.

Lemma stored_pool_parsed_back_witness :
  parse_pool_data
    (CStr (pool_text [("Rare", "0.5 TLM"); ("Epic", "1 TLM"); ("Rare", "0.25 TLM")]))
  = Ok (fold_left (λ m kx, <[kx.1 := kx.2]> m)
          (zip [("Rare", "0.5 TLM"); ("Epic", "1 TLM"); ("Rare", "0.25 TLM")].*1
               [0.5%float; 1%float; 0.25%float]) ∅).
Proof.
  refine (stored_pool_parsed_back
    [("Rare", "0.5 TLM"); ("Epic", "1 TLM"); ("Rare", "0.25 TLM")]
    [0.5%float; 1%float; 0.25%float] _ _).
  - repeat constructor.
  - repeat constructor.
Defined.

End PoolTextFacts.

(** ** The day of a timestamp in date-time form *)

Section date_time_facts.

Implicit Types (c x sep : ascii) (s : string).

(** A character that has the shape of [x], where [x] is neither "T" nor
    a space, is neither. *)
Lemma shape_char c x :
  (if PyStr.is_digit c then "d"%char else c) = x →
  x ≠ "T"%char → x ≠ " "%char →
  PyStr.ascii_eqb c "T" = false ∧ PyStr.ascii_eqb c " " = false.
Proof.
  intros Hx HT Hsp. unfold PyStr.ascii_eqb.
  split; apply bool_decide_eq_false_2; intros ->; simpl in Hx; congruence.
Qed.

Lemma shape_sep c sep :
  (if PyStr.is_digit c then "d"%char else c) = sep →
  sep = "T"%char ∨ sep = " "%char → c = sep.
Proof.
  intros Hx Hsep. destruct (PyStr.is_digit c); [|done].
  destruct Hsep; congruence.
Qed.

(** X9. A timestamp in date-time form, with either separator, is cut to
    its date, the first ten characters. *)
Theorem date_time_form_day sep s :
  sep = "T"%char ∨ sep = " "%char →
  date_time_form sep s = true →
  extract_date s = String.substring 0 10 s.
Proof.
  intros Hsep Hform. unfold date_time_form in Hform.
  apply bool_decide_eq_true in Hform.
  rewrite <- (String.string_of_list_ascii_of_string s).
  destruct (String.list_ascii_of_string s)
    as [|c0 [|c1 [|c2 [|c3 [|c4 [|c5 [|c6 [|c7 [|c8 [|c9 [|c10 [|c11 [|c12
        [|c13 [|c14 [|c15 [|c16 [|c17 [|c18 [|c19 l]]]]]]]]]]]]]]]]]]]];
    try discriminate Hform.
  injection Hform
    as H0 H1 H2 H3 H4 H5 H6 H7 H8 H9 H10 H11 H12 H13 H14 H15 H16 H17 H18.
  apply shape_sep in H10; [|done]. subst c10.
  repeat match goal with
  | H : (if PyStr.is_digit ?c then _ else ?c) = _ |- _ =>
      apply shape_char in H as [? ?]; [|done..]
  end.
  cbn [String.string_of_list_ascii String.substring].
  set (d := String c0 (String c1 (String c2 (String c3 (String c4
              (String c5 (String c6 (String c7 (String c8
                (String c9 EmptyString)))))))))).
  set (t := String c11 (String c12 (String c13 (String c14
              (String c15 (String c16 (String c17
                (String c18 EmptyString)))))))).
  change (extract_date (d +:+ String sep t) = d).
  assert (PyStr.contains "T" d = false ∧ PyStr.contains " " d = false
          ∧ PyStr.contains "T" t = false) as (HdT & Hds & HtT).
  { subst d t. cbn [PyStr.contains].
    repeat match goal with H : PyStr.ascii_eqb _ _ = false |- _ =>
      rewrite H; clear H end.
    done. }
  unfold extract_date. rewrite contains_app. cbn [PyStr.contains].
  rewrite HdT, HtT. destruct Hsep as [-> | ->].
  - change (PyStr.ascii_eqb "T" "T") with true. cbn [orb].
    by rewrite split_first.
  - change (PyStr.ascii_eqb " " "T") with false. cbn [orb].
    by rewrite split_first.
Qed.

End date_time_facts.

Lemma date_time_form_day_witness :
  extract_date "2024-01-05T10:00:00" = String.substring 0 10 "2024-01-05T10:00:00".
Proof.
  refine (date_time_form_day "T" "2024-01-05T10:00:00" _ _).
  - by left.
  - reflexivity.
Defined.

(** ** The charts *)

Module VisualFacts.
Import Visual.

(** X10. The grid of the combined chart has a cell for every pool type, and
    no row without a chart. *)
Theorem grid_holds_all_pools (n_pools : nat) :
  n_pools ≤ cols * grid_rows n_pools ∧
  (0 < n_pools → cols * (grid_rows n_pools - 1) < n_pools).
Proof.
  unfold grid_rows, cols.
  pose proof (Nat.div_mod_eq (n_pools + 3 - 1) 3) as Hdiv.
  pose proof (Nat.mod_upper_bound (n_pools + 3 - 1) 3) as Hmod.
  lia.
Qed.

Lemma length_append (a c : string) :
  String.length (a +:+ c) = String.length a + String.length c.
Proof.
  induction a as [|x a IH]; [done|].
  rewrite CsvFacts.append_cons. simpl. by rewrite IH.
Qed.

Lemma grid_holds_all_pools_witness :
  7 ≤ cols * grid_rows 7 ∧ cols * (grid_rows 7 - 1) < 7.
Proof.
  split.
  - apply (proj1 (grid_holds_all_pools 7)).
  - apply (proj2 (grid_holds_all_pools 7)). lia.
Defined.

Lemma append_inj_r (a b c : string) : a +:+ c = b +:+ c → a = b.
Proof.
  revert b. induction a as [|x a IH]; intros [|y b] H.
  - done.
  - apply (f_equal String.length) in H.
    rewrite !length_append in H. simpl in H. lia.
  - apply (f_equal String.length) in H.
    rewrite !length_append in H. simpl in H. lia.
  - rewrite !CsvFacts.append_cons in H. injection H as -> H.
    by rewrite (IH b H).
Qed.

(** X11. The charts of [run_sequential] are written to different files:
    for pool types without underscore, two charts have the same file
    name only when they are charts of the same pool type and the same
    window. *)
Theorem chart_files_distinct (p p' : string) (d d' : option Z) :
  PyStr.contains "_" p = false →
  PyStr.contains "_" p' = false →
  d ∈ windows → d' ∈ windows →
  filename p d = filename p' d' →
  p = p' ∧ d = d'.
Proof.
  intros Hp Hp' Hd Hd' Heq. unfold filename in Heq.
  apply (inj (String.append "pool_")) in Heq.
  assert (∀ dd, dd ∈ windows →
            dd = None ∧ filename_suffix dd +:+ ".png" = ".png"
            ∨ ∃ r, filename_suffix dd +:+ ".png" = String "_" r
                   ∧ (∀ dd' , dd' ∈ windows →
                        filename_suffix dd' +:+ ".png" = String "_" r →
                        dd' = dd)) as Hcases.
  { intros dd Hdd. unfold windows in Hdd.
    apply elem_of_cons in Hdd as [->|Hdd]; [by left|]. right.
    apply elem_of_cons in Hdd as [->|Hdd].
    - eexists. split; [vm_compute; reflexivity|].
      intros dd' Hdd' H'. unfold windows in Hdd'.
      repeat (apply elem_of_cons in Hdd' as [->|Hdd']); try done;
        try (by apply elem_of_nil in Hdd'); vm_compute in H'; discriminate.
    - apply elem_of_cons in Hdd as [->|Hdd]; [|by apply elem_of_nil in Hdd].
      eexists. split; [vm_compute; reflexivity|].
      intros dd' Hdd' H'. unfold windows in Hdd'.
      repeat (apply elem_of_cons in Hdd' as [->|Hdd']); try done;
        try (by apply elem_of_nil in Hdd'); vm_compute in H'; discriminate. }
  assert (∀ q, PyStr.contains "_" q = false →
               PyStr.contains "_" (q +:+ ".png") = false) as Hpng.
  { intros q Hq. by rewrite contains_app, Hq. }
  destruct (Hcases d Hd) as [[-> Hs]|(r & Hs & Hr)];
    destruct (Hcases d' Hd') as [[-> Hs']|(r' & Hs' & Hr')];
    rewrite ?Hs, ?Hs' in Heq.
  - apply append_inj_r in Heq. done.
  - apply (f_equal (PyStr.contains "_")) in Heq.
    rewrite (Hpng p Hp), contains_app, contains_sep, orb_true_r in Heq.
    done.
  - apply (f_equal (PyStr.contains "_")) in Heq.
    rewrite (Hpng p' Hp'), contains_app, contains_sep, orb_true_r in Heq.
    done.
  - assert (Some p = Some p') as [= <-].
    { rewrite <- (split_first "_" p r Hp), <- (split_first "_" p' r' Hp').
      by rewrite Heq. }
    apply (inj (String.append p)) in Heq. injection Heq as <-.
    split; [done|]. symmetry. by apply Hr.
Qed.

Lemma chart_files_distinct_witness :
  "Rare" = "Rare" ∧ Some 7%Z = Some 7%Z.
Proof.
  refine (chart_files_distinct "Rare" "Rare" (Some 7%Z) (Some 7%Z) _ _ _ _ _).
  - reflexivity.
  - reflexivity.
  - unfold windows. set_solver.
  - unfold windows. set_solver.
  - reflexivity.
Defined.

End VisualFacts.
